(** * Sync scheduling of the YouTube channel archiver

    A shallow embedding of [backend/src/services/scheduler.js] (class
    [Scheduler]) and of the request handlers of [backend/src/routes/sync.js]
    and [backend/src/routes/channels.js] that drive it.

    Conventions.
    - The PostgreSQL tables [channel] and [sync_log] are lists of rows in
      table order; a [SELECT ... WHERE] is a filter that keeps that order.
      Queries do not fail.
    - The [Map] [this.jobs] is a [gmap] from channel id to the handle of a
      node-cron task; the tasks that node-cron holds are a list indexed by
      handle, so that a task dropped from the map without being stopped
      stays visible.
    - [async] functions are run to completion: a function is a state
      transformer that either returns normally or throws.
    - [services/sync.js] (class [SyncService]) is not part of the sources;
      the scheduler is parametrised by its three entry points. *)

From stdpp Require Import gmap strings list sorting pretty.

Open Scope string_scope.
Open Scope list_scope.

(** ** JavaScript values used by the code *)

Record JsError := MkError { message : string }.

(** An [async] call either resolves with a value or rejects. *)
Inductive Completion (A : Type) :=
| Normal (a : A)
| Throw (e : JsError).
Arguments Normal {A} a.
Arguments Throw {A} e.

(** [!channelId]: [null], [undefined] and the empty string are falsy. *)
Definition truthy (v : option string) : bool :=
  match v with
  | Some s => negb (String.eqb s "")
  | None => false
  end.

(** [a || b] on a nullable string. *)
Definition or_default (a : option string) (b : string) : string :=
  match a with
  | Some s => if String.eqb s "" then b else s
  | None => b
  end.

(** ** Tables *)

Record Channel := {
  ch_id : string;
  ch_sync_schedule : option string;
  ch_api_key : string;
  ch_sync_enabled : bool
}.

Record SyncLog := {
  log_id : nat;
  log_channel_id : string;
  log_sync_type : string;
  log_status : string;
  log_started_at : nat;
  log_completed_at : option nat;
  log_errors : option string
}.

(** [ORDER BY started_at DESC]: [a] may come before [b]. *)
Definition started_after (a b : SyncLog) : Prop :=
  (log_started_at b ≤ log_started_at a)%nat.

#[global] Instance started_after_dec : RelDecision started_after.
Proof. intros a b. unfold started_after. apply _. Defined.

(** ** node-cron tasks and the console *)

Record Task := {
  task_channel : string;      (* [channelId] captured by the callback *)
  task_cron : string;         (* the expression given to [cron.schedule] *)
  task_api_key : string;      (* [channel.api_key] captured by the callback *)
  task_running : bool         (* false once [stop()] was called *)
}.

Inductive CronEvent :=
| CronSchedule (h : nat) (expr : string)
| CronStop (h : nat).

Inductive ConsoleLine :=
| ConsoleLog (msg : string)
| ConsoleError (msg : string) (err : option JsError).

(** A call made to the sync service: which entry point, with which
    arguments. *)
Inductive Call :=
| CallIncremental (channelId apiKey : string)
| CallFull (channelId apiKey : string).

Definition call_channel (c : Call) : string :=
  match c with
  | CallIncremental i _ => i
  | CallFull i _ => i
  end.

Definition stop_task (t : Task) : Task :=
  {| task_channel := task_channel t; task_cron := task_cron t;
     task_api_key := task_api_key t; task_running := false |}.

(** ** HTTP responses *)

Inductive Body :=
| BodyError (error : string)
| BodyMessage (msg : string)
| BodyProgress (running : bool) (sync : option SyncLog).

Record Response := { res_status : nat; res_body : Body }.

Definition json (b : Body) : Response := {| res_status := 200; res_body := b |}.
Definition status_json (code : nat) (b : Body) : Response :=
  {| res_status := code; res_body := b |}.

(** The body of [PUT /api/channels/:id]; [None] is [undefined]. *)
Record PutBody := {
  syncEnabled : option bool;
  syncSchedule : option (option string);
  apiKey : option string
}.

(** The bodies of the other answers of [routes/sync.js] and
    [routes/channels.js]. *)
Inductive Payload :=
| PayloadError (error : string) (details : option string)
| PayloadMessage (msg : string)
| PayloadStarted (msg : string) (channelId : option string) (syncType : string)
| PayloadRows (rows : list SyncLog)
| PayloadAdded (msg id title customUrl : string) (syncEnabled : bool)
    (syncSchedule : string).

Record Reply := { reply_status : nat; reply_body : Payload }.

Definition reply (code : nat) (b : Payload) : Reply :=
  {| reply_status := code; reply_body := b |}.

(** The body of [POST /api/channels]; [None] is [undefined]. *)
Record AddBody := {
  add_channelId : option string;
  add_apiKey : option string;
  add_syncSchedule : option string
}.

(** What [getChannelDetails] of the YouTube API service resolves with, as
    far as the handlers use it. *)
Record ChannelDetails := {
  cd_id : string;
  cd_title : string;
  cd_customUrl : string
}.

Section Scheduler.

(** ** The sync service, as the scheduler and the routes see it *)

Context {ServiceState SyncResult : Type}.

Record World := {
  channel : list Channel;
  sync_log : list SyncLog;
  service : ServiceState;
  current_timestamp : nat
}.

Record SyncService := {
  incrementalSync : string → string → World → Completion SyncResult * World;
  fullSync : string → string → World → Completion SyncResult * World;
  cancelSync : option string → ServiceState → ServiceState
}.

Variable syncService : SyncService.

(** [cron.schedule] refuses some expressions: [None] when the expression is
    accepted, the error thrown otherwise. *)
Variable cron_validate : string → option JsError.

(** ** Program state *)

Record State := {
  jobs : gmap string nat;
  tasks : list Task;
  cron_trace : list CronEvent;
  console : list ConsoleLine;
  calls : list Call;             (* history of calls to the sync service *)
  app_scheduler : bool;          (* [req.app.get('scheduler')] is set *)
  app_syncService : bool;        (* [req.app.get('syncService')] is set *)
  world : World
}.

Definition M (A : Type) : Type := State → Completion A * State.

Definition ret {A} (a : A) : M A := λ st, (Normal a, st).

Definition bind {A B} (m : M A) (k : A → M B) : M B :=
  λ st, match m st with
        | (Normal a, st') => k a st'
        | (Throw e, st') => (Throw e, st')
        end.

Definition throw {A} (e : JsError) : M A := λ st, (Throw e, st).

Definition try_catch {A} (body : M A) (handler : JsError → M A) : M A :=
  λ st, match body st with
        | (Normal a, st') => (Normal a, st')
        | (Throw e, st') => handler e st'
        end.

#[local] Instance M_ret : MRet M := @ret.
#[local] Instance M_bind : MBind M := λ A B k m, bind m k.

Definition get : M State := λ st, (Normal st, st).
Definition modify (f : State → State) : M unit := λ st, (Normal tt, f st).

(** [for (const x of xs) { body }] *)
Fixpoint for_of {A} (xs : list A) (body : A → M unit) : M unit :=
  match xs with
  | [] => ret tt
  | x :: xs' => body x ;; for_of xs' body
  end.

(** ** State updates *)

Definition set_jobs (f : gmap string nat → gmap string nat) (st : State) : State :=
  {| jobs := f (jobs st); tasks := tasks st; cron_trace := cron_trace st;
     console := console st; calls := calls st;
     app_scheduler := app_scheduler st; app_syncService := app_syncService st;
     world := world st |}.

Definition set_cron (f : list Task → list Task) (ev : CronEvent) (st : State) : State :=
  {| jobs := jobs st; tasks := f (tasks st); cron_trace := cron_trace st ++ [ev];
     console := console st; calls := calls st;
     app_scheduler := app_scheduler st; app_syncService := app_syncService st;
     world := world st |}.

Definition add_console (l : ConsoleLine) (st : State) : State :=
  {| jobs := jobs st; tasks := tasks st; cron_trace := cron_trace st;
     console := console st ++ [l]; calls := calls st;
     app_scheduler := app_scheduler st; app_syncService := app_syncService st;
     world := world st |}.

Definition set_world (c : option Call) (w : World) (st : State) : State :=
  {| jobs := jobs st; tasks := tasks st; cron_trace := cron_trace st;
     console := console st; calls := calls st ++ option_list c;
     app_scheduler := app_scheduler st; app_syncService := app_syncService st;
     world := w |}.

Definition set_channel (f : list Channel → list Channel) (w : World) : World :=
  {| channel := f (channel w); sync_log := sync_log w; service := service w;
     current_timestamp := current_timestamp w |}.

Definition set_sync_log (f : list SyncLog → list SyncLog) (w : World) : World :=
  {| channel := channel w; sync_log := f (sync_log w); service := service w;
     current_timestamp := current_timestamp w |}.

Definition set_service (f : ServiceState → ServiceState) (w : World) : World :=
  {| channel := channel w; sync_log := sync_log w; service := f (service w);
     current_timestamp := current_timestamp w |}.

(** ** Primitive effects *)

Definition console_log (msg : string) : M unit :=
  modify (add_console (ConsoleLog msg)).

Definition console_error (msg : string) (err : option JsError) : M unit :=
  modify (add_console (ConsoleError msg err)).

(** [SELECT ... FROM channel WHERE sync_enabled = true] *)
Definition select_enabled : M (list Channel) :=
  λ st, (Normal (filter (λ c, ch_sync_enabled c = true) (channel (world st))), st).

(** [SELECT ... FROM channel WHERE id = $1] *)
Definition select_channel (channelId : string) : M (list Channel) :=
  λ st, (Normal (filter (λ c, ch_id c = channelId) (channel (world st))), st).

(** [cron.schedule(cronTime, callback)]: the new task starts armed. *)
Definition cron_schedule (cronTime channelId key : string) : M nat :=
  λ st, match cron_validate cronTime with
        | Some e => (Throw e, st)
        | None =>
            let h := length (tasks st) in
            let t := {| task_channel := channelId; task_cron := cronTime;
                        task_api_key := key; task_running := true |} in
            (Normal h, set_cron (λ ts, ts ++ [t]) (CronSchedule h cronTime) st)
        end.

(** [job.stop()] *)
Definition cron_stop (h : nat) : M unit :=
  modify (set_cron (alter stop_task h) (CronStop h)).

Definition call_incrementalSync (channelId key : string) : M SyncResult :=
  λ st, let '(r, w) := incrementalSync syncService channelId key (world st) in
        (r, set_world (Some (CallIncremental channelId key)) w st).

Definition call_fullSync (channelId key : string) : M SyncResult :=
  λ st, let '(r, w) := fullSync syncService channelId key (world st) in
        (r, set_world (Some (CallFull channelId key)) w st).

(** ** class Scheduler *)

(** [constructor()], in an application that holds no scheduler or sync
    service yet. *)
Definition constructor (w : World) : State :=
  {| jobs := ∅; tasks := []; cron_trace := []; console := []; calls := [];
     app_scheduler := false; app_syncService := false; world := w |}.

Definition registerChannel (channelId : string) : M unit :=
  try_catch
    (rows ← select_channel channelId;
     match rows with
     | [] =>
         console_error ("Channel " +:+ channelId +:+ " not found in database") None
     | channel :: _ =>
         if negb (ch_sync_enabled channel) then
           console_log ("Channel " +:+ channelId +:+ " sync is disabled, skipping registration")
         else
           st ← get;
           match jobs st !! channelId with
           | Some h => cron_stop h
           | None => ret tt
           end ;;
           let cronTime := or_default (ch_sync_schedule channel) "0 2 * * *" in
           console_log ("Scheduling channel " +:+ channelId +:+ " with cron: " +:+ cronTime) ;;
           job ← cron_schedule cronTime channelId (ch_api_key channel);
           modify (set_jobs (insert channelId job)) ;;
           console_log ("Channel " +:+ channelId +:+ " registered for scheduled syncing")
     end)
    (λ error,
       console_error ("Error registering channel " +:+ channelId +:+ ":") (Some error)).

Definition unregisterChannel (channelId : string) : M unit :=
  st ← get;
  match jobs st !! channelId with
  | Some h =>
      cron_stop h ;;
      modify (set_jobs (delete channelId)) ;;
      console_log ("Channel " +:+ channelId +:+ " unregistered from scheduled syncing")
  | None => ret tt
  end.

Definition updateChannel (channelId : string) : M unit :=
  unregisterChannel channelId ;;
  registerChannel channelId.

Definition initialize : M unit :=
  console_log "Initializing scheduler with channels from database..." ;;
  try_catch
    (rows ← select_enabled;
     for_of rows (λ channel, registerChannel (ch_id channel)) ;;
     console_log ("Scheduler initialized with " +:+ pretty (length rows) +:+ " channels"))
    (λ error, console_error "Error initializing scheduler:" (Some error)).

(** The callback given to [cron.schedule] by [registerChannel]; [t] holds
    the variables it closes over. *)
Definition cron_callback (t : Task) : M unit :=
  let channelId := task_channel t in
  console_log ("Starting scheduled incremental sync for " +:+ channelId +:+ "...") ;;
  try_catch
    (call_incrementalSync channelId (task_api_key t) ;;
     console_log ("Scheduled sync completed successfully for " +:+ channelId))
    (λ error,
       console_error ("Scheduled sync failed for " +:+ channelId +:+ ":") (Some error)).

(** node-cron runs the callback of a task when its time comes, unless the
    task was stopped. *)
Definition fire (h : nat) : M unit :=
  st ← get;
  match tasks st !! h with
  | Some t => if task_running t then cron_callback t else ret tt
  | None => ret tt
  end.

(** What [triggerManualSync] resolves with: [{ success: true, channels }]
    or the value of the one sync. *)
Inductive ManualResult :=
| SyncedAll (channels : nat)
| Synced (r : SyncResult).

(** [for (const x of xs) { results.push(await body(x)) }] *)
Fixpoint for_of_push {A B} (xs : list A) (body : A → M B) (results : list B)
  : M (list B) :=
  match xs with
  | [] => ret results
  | x :: xs' => r ← body x; for_of_push xs' body (results ++ [r])
  end.

Definition triggerManualSync (syncType : string) (channelId : option string)
  : M ManualResult :=
  try_catch
    (if negb (truthy channelId) then
       console_log ("Triggering manual " +:+ syncType +:+ " sync for all enabled channels...") ;;
       rows ← select_enabled;
       results ← for_of_push rows
         (λ channel,
            console_log ("Syncing channel " +:+ ch_id channel +:+ "...") ;;
            if String.eqb syncType "full"
            then call_fullSync (ch_id channel) (ch_api_key channel)
            else call_incrementalSync (ch_id channel) (ch_api_key channel))
         [];
       ret (SyncedAll (length results))
     else
       let channelId := default "" channelId in
       console_log ("Triggering manual " +:+ syncType +:+ " sync for channel " +:+ channelId +:+ "...") ;;
       rows ← select_channel channelId;
       match rows with
       | [] => throw (MkError ("Channel " +:+ channelId +:+ " not found"))
       | channel :: _ =>
           r ← (if String.eqb syncType "full"
                then call_fullSync (ch_id channel) (ch_api_key channel)
                else call_incrementalSync (ch_id channel) (ch_api_key channel));
           ret (Synced r)
       end)
    (λ error,
       console_error "Manual sync failed:" (Some error) ;;
       throw error).

(** ** routes/sync.js *)

Definition modify_world (f : World → World) : M unit :=
  modify (λ st, set_world None (f (world st)) st).

(** [SELECT * FROM sync_log WHERE status = 'running'
     ORDER BY started_at DESC LIMIT 1] *)
Definition select_running_latest : M (list SyncLog) :=
  λ st,
    (Normal (take 1 (merge_sort started_after
                       (filter (λ r, log_status r = "running") (sync_log (world st))))),
     st).

(** [GET /api/sync/progress] *)
Definition get_progress : M Response :=
  try_catch
    (runningSync ← select_running_latest;
     match runningSync with
     | [] => ret (json (BodyProgress false None))
     | row :: _ => ret (json (BodyProgress true (Some row)))
     end)
    (λ error,
       console_error "Error fetching sync progress:" (Some error) ;;
       ret (status_json 500 (BodyError "Failed to fetch sync progress"))).

(** [SET status = 'cancelled', completed_at = CURRENT_TIMESTAMP,
         errors = 'Cancelled by user'] *)
Definition set_cancelled (now : nat) (r : SyncLog) : SyncLog :=
  {| log_id := log_id r; log_channel_id := log_channel_id r;
     log_sync_type := log_sync_type r; log_status := "cancelled"; log_started_at := log_started_at r;
     log_completed_at := Some now; log_errors := Some "Cancelled by user" |}.

(** [UPDATE sync_log SET ... WHERE channel_id = $1 AND status = 'running'] *)
Definition update_cancel_channel (channelId : string) : M unit :=
  modify_world (λ w,
    set_sync_log
      (fmap (λ r, if bool_decide (log_channel_id r = channelId ∧ log_status r = "running")
                 then set_cancelled (current_timestamp w) r else r)) w).

(** [UPDATE sync_log SET ... WHERE status = 'running'] *)
Definition update_cancel_running : M unit :=
  modify_world (λ w,
    set_sync_log
      (fmap (λ r, if bool_decide (log_status r = "running")
                 then set_cancelled (current_timestamp w) r else r)) w).

(** [POST /api/sync/cancel] with [req.body.channelId] *)
Definition post_cancel (channelId : option string) : M Response :=
  try_catch
    (st ← get;
     if negb (app_syncService st) then
       ret (status_json 500 (BodyError "Sync service not initialized"))
     else
       modify_world (set_service (cancelSync syncService channelId)) ;;
       (if truthy channelId
        then update_cancel_channel (default "" channelId)
        else update_cancel_running) ;;
       ret (json (BodyMessage "Sync cancellation requested")))
    (λ error,
       console_error "Error cancelling sync:" (Some error) ;;
       ret (status_json 500 (BodyError "Failed to cancel sync"))).

(** ** routes/channels.js *)

Definition apply_put (body : PutBody) (c : Channel) : Channel :=
  {| ch_id := ch_id c;
     ch_sync_schedule := default (ch_sync_schedule c) (syncSchedule body);
     ch_api_key := default (ch_api_key c) (apiKey body);
     ch_sync_enabled := default (ch_sync_enabled c) (syncEnabled body) |}.

(** [PUT /api/channels/:id] *)
Definition put_channel (id : string) (body : PutBody) : M Response :=
  try_catch
    (existing ← select_channel id;
     match existing with
     | [] => ret (status_json 404 (BodyError "Channel not found"))
     | _ :: _ =>
         if bool_decide (syncEnabled body = None ∧ syncSchedule body = None
                         ∧ apiKey body = None) then
           ret (status_json 400 (BodyError "No fields to update"))
         else
           modify_world
             (set_channel
                (fmap (λ c, if bool_decide (ch_id c = id) then apply_put body c else c))) ;;
           st ← get;
           (if app_scheduler st
               && (bool_decide (syncEnabled body ≠ None)
                   || bool_decide (syncSchedule body ≠ None))
            then updateChannel id
            else ret tt) ;;
           ret (json (BodyMessage "Channel updated successfully"))
     end)
    (λ error,
       console_error "Error updating channel:" (Some error) ;;
       ret (status_json 500 (BodyError "Failed to update channel"))).

(** ** The rest of class Scheduler *)

(** [startDailySync(cronTime)]; the argument is not used. *)
Definition startDailySync (cronTime : string) : M unit :=
  console_log "Starting scheduler (loading channels from database)..." ;;
  initialize.

(** [stopAll()].  [this.jobs.forEach] visits the entries in insertion order,
    which the [gmap] does not keep: they are visited in the order of
    [map_to_list].  Only the order of the lines written and of the [stop]
    calls depends on it. *)
Definition stopAll : M unit :=
  st ← get;
  for_of (map_to_list (jobs st))
    (λ entry,
       cron_stop (snd entry) ;;
       console_log ("Stopped scheduled job for channel " +:+ fst entry)) ;;
  modify (set_jobs (λ _, ∅)) ;;
  console_log "All scheduled jobs stopped".

(** ** The rest of routes/sync.js *)

(** [POST /api/sync/trigger] with [req.body.syncType].  The sync is started
    and not awaited; what it resolves or rejects with is only written to the
    console (the value printed after the text is left out). *)
Definition post_trigger (syncType : option string) : M Reply :=
  try_catch
    (let syncType := default "incremental" syncType in
     st ← get;
     if negb (app_scheduler st) then
       ret (reply 500 (PayloadError "Scheduler not initialized" None))
     else
       try_catch
         (triggerManualSync syncType None ;;
          console_log "Manual sync completed:")
         (λ error, console_error "Manual sync error:" (Some error)) ;;
       ret (reply 200 (PayloadStarted (syncType +:+ " sync started") None syncType)))
    (λ error,
       console_error "Error triggering sync:" (Some error) ;;
       ret (reply 500 (PayloadError "Failed to trigger sync" None))).

(** [SELECT * FROM sync_log ORDER BY started_at DESC LIMIT 10] *)
Definition select_latest : M (list SyncLog) :=
  λ st, (Normal (take 10 (merge_sort started_after (sync_log (world st)))), st).

(** [GET /api/sync/status] *)
Definition get_status : M Reply :=
  try_catch
    (result ← select_latest;
     ret (reply 200 (PayloadRows result)))
    (λ error,
       console_error "Error fetching sync status:" (Some error) ;;
       ret (reply 500 (PayloadError "Failed to fetch sync status" None))).

(** ** The rest of routes/channels.js *)

(** [new YouTubeAPIService(apiKey).getChannelDetails(channelId)]: the
    service is not among the sources and reaches outside the program. *)
Variable getChannelDetails : string → string → Completion ChannelDetails.

(** Modelled from the spec: the [INSERT INTO channel] of a row whose [id] is
    taken.  The schema is not among the sources; the entity identifier is
    "stable, unique", so the insertion is refused. *)
Definition insert_channel (c : Channel) : M unit :=
  λ st,
    if bool_decide (Exists (λ r, ch_id r = ch_id c) (channel (world st)))
    then (Throw (MkError "duplicate key value violates unique constraint"), st)
    else (Normal tt, set_world None (set_channel (λ l, l ++ [c]) (world st)) st).

(** [POST /api/channels] *)
Definition post_channel (body : AddBody) : M Reply :=
  try_catch
    (let syncSchedule := default "0 2 * * *" (add_syncSchedule body) in
     if negb (truthy (add_channelId body)) || negb (truthy (add_apiKey body)) then
       ret (reply 400 (PayloadError "channelId and apiKey are required" None))
     else
       let channelId := default "" (add_channelId body) in
       let apiKey := default "" (add_apiKey body) in
       match getChannelDetails apiKey channelId with
       | Throw error =>
           ret (reply 400 (PayloadError "Invalid channel ID or API key"
                             (Some (message error))))
       | Normal channelDetails =>
           existing ← select_channel channelId;
           match existing with
           | _ :: _ => ret (reply 409 (PayloadError "Channel already exists" None))
           | [] =>
               insert_channel
                 {| ch_id := cd_id channelDetails;
                    ch_sync_schedule := Some syncSchedule;
                    ch_api_key := apiKey; ch_sync_enabled := true |} ;;
               st ← get;
               (if app_scheduler st then registerChannel channelId else ret tt) ;;
               ret (reply 201
                      (PayloadAdded "Channel added successfully"
                         (cd_id channelDetails) (cd_title channelDetails)
                         (cd_customUrl channelDetails) true syncSchedule))
           end
       end)
    (λ error,
       console_error "Error adding channel:" (Some error) ;;
       ret (reply 500 (PayloadError "Failed to add channel" None))).

(** [DELETE FROM channel WHERE id = $1]; as the handler notes, "cascade will
    delete related videos, comments, sync logs". *)
Definition delete_from_channel (id : string) : M unit :=
  modify_world (λ w,
    set_sync_log (filter (λ r, log_channel_id r ≠ id))
      (set_channel (filter (λ c, ch_id c ≠ id)) w)).

(** [DELETE /api/channels/:id] *)
Definition delete_channel (id : string) : M Reply :=
  try_catch
    (existing ← select_channel id;
     match existing with
     | [] => ret (reply 404 (PayloadError "Channel not found" None))
     | _ :: _ =>
         delete_from_channel id ;;
         st ← get;
         (if app_scheduler st then unregisterChannel id else ret tt) ;;
         ret (reply 200 (PayloadMessage "Channel deleted successfully"))
     end)
    (λ error,
       console_error "Error deleting channel:" (Some error) ;;
       ret (reply 500 (PayloadError "Failed to delete channel" None))).

(** [POST /api/channels/:id/sync] with [req.body.syncType].  As for
    [POST /api/sync/trigger], the sync is not awaited. *)
Definition post_channel_sync (id : string) (syncType : option string) : M Reply :=
  try_catch
    (let syncType := default "incremental" syncType in
     result ← select_channel id;
     match result with
     | [] => ret (reply 404 (PayloadError "Channel not found" None))
     | _ :: _ =>
         st ← get;
         if negb (app_scheduler st) then
           ret (reply 500 (PayloadError "Scheduler not initialized" None))
         else
           try_catch
             (triggerManualSync syncType (Some id) ;;
              console_log ("Manual sync completed for " +:+ id +:+ ":"))
             (λ error,
                console_error ("Manual sync error for " +:+ id +:+ ":") (Some error)) ;;
           ret (reply 200
                  (PayloadStarted (syncType +:+ " sync started for channel " +:+ id)
                     (Some id) syncType))
     end)
    (λ error,
       console_error "Error triggering channel sync:" (Some error) ;;
       ret (reply 500 (PayloadError "Failed to trigger channel sync" None))).

End Scheduler.

(** ** The sync service of the specification

    [services/sync.js] is not among the sources.  The definitions of this
    module follow sections 4.2 to 4.4 of the specification; they give the
    scheduler and the routes a sync service to run against. *)

Module Orchestrator.

(** Modelled from the spec: the CancellationRegistry of class [SyncService],
    "process-wide set of entity identifiers currently flagged for
    cancellation".  The intent recorded by [requestAll] is kept apart,
    together with the entities that have honoured it since. *)
Record Registry := {
  requested : gset string;
  requested_all : bool;
  honoured : gset string
}.

(** Modelled from the spec: the absent CancellationRegistry with no entity
    flagged, as when the process starts. *)
Definition empty_registry : Registry :=
  {| requested := ∅; requested_all := false; honoured := ∅ |}.

(** Modelled from the spec: [request(entityId)] of the absent
    CancellationRegistry, "record intent". *)
Definition request (entityId : string) (r : Registry) : Registry :=
  {| requested := {[entityId]} ∪ requested r; requested_all := requested_all r;
     honoured := honoured r |}.

(** Modelled from the spec: [requestAll()] of the absent
    CancellationRegistry, "record intent". *)
Definition requestAll (r : Registry) : Registry :=
  {| requested := requested r; requested_all := true; honoured := ∅ |}.

(** Modelled from the spec: membership in the absent CancellationRegistry,
    "is this entity flagged". *)
Definition is_flagged (entityId : string) (r : Registry) : bool :=
  bool_decide (entityId ∈ requested r)
  || (requested_all r && bool_decide (entityId ∉ honoured r)).

(** Modelled from the spec: [consume(entityId) -> bool] of the absent
    CancellationRegistry, "atomically checks and clears the flag for
    entityId": a second call returns false. *)
Definition consume (entityId : string) (r : Registry) : bool * Registry :=
  (is_flagged entityId r,
   {| requested := requested r ∖ {[entityId]}; requested_all := requested_all r;
      honoured := {[entityId]} ∪ honoured r |}).

(** Modelled from the spec: [cancelSync(entityId | all)] of the absent
    [SyncService], "sets the flag(s) in CancellationRegistry"; an omitted
    entityId "cancels all running". *)
Definition cancelSync (entityId : option string) (r : Registry) : Registry :=
  match entityId with
  | Some i => request i r
  | None => requestAll r
  end.

(** Modelled from the spec: what a run of the absent SyncOrchestrator
    resolves with, "the run's outcome": the record it opened and the terminal
    state it gave it. *)
Record RunOutcome := { run_id : nat; run_state : string }.

Abbreviation World := (@World Registry).

(** Modelled from the spec: [open(entityId, mode) -> runId] of the absent
    RunLogStore, "inserts a running record, returns its identifier", with
    "started_at = now".  The identifier is "generated": it is above every
    identifier of the log. *)
Definition open (entityId mode : string) (w : World) : nat * World :=
  let runId := S (max_list (log_id <$> sync_log w)) in
  (runId,
   set_sync_log
     (λ l, l ++ [ {| log_id := runId; log_channel_id := entityId;
                      log_sync_type := mode; log_status := "running";
                      log_started_at := current_timestamp w;
                      log_completed_at := None; log_errors := None |} ]) w).

(** Modelled from the spec: [close(runId, state, errorDetail?)] of the
    absent RunLogStore, "sets completed_at = now and the terminal state;
    fails loudly if runId does not exist". *)
Definition close (runId : nat) (state : string) (errorDetail : option string)
    (w : World) : Completion unit * World :=
  if bool_decide (Exists (λ r, log_id r = runId) (sync_log w)) then
    (Normal tt,
     set_sync_log
       (fmap (λ r, if bool_decide (log_id r = runId)
                  then {| log_id := log_id r; log_channel_id := log_channel_id r;
                          log_sync_type := log_sync_type r; log_status := state;
                          log_started_at := log_started_at r;
                          log_completed_at := Some (current_timestamp w);
                          log_errors := errorDetail |}
                  else r)) w)
  else (Throw (MkError "run record not found"), w).

Section Run.

(** The external pipeline, "run(entityId, credentials, mode) -> success |
    raises error". *)
Variable pipeline : string → string → string → option JsError.

(** Modelled from the spec: the body of a run of the absent SyncOrchestrator
    once its record is open (section 4.2): the cancellation flag is checked
    before the pipeline is invoked; a flag moves the record to [cancelled]
    with "Cancelled by user" and is cleared; a pipeline that "completes
    normally" gives [completed]; any other error gives [failed] "with the
    error's message" and is propagated. *)
Definition finish (mode entityId credentials : string) (opened : nat * World)
  : Completion RunOutcome * World :=
  let '(runId, w) := opened in
  let '(flag, reg) := consume entityId (service w) in
  if flag then
    match close runId "cancelled" (Some "Cancelled by user") (set_service (λ _, reg) w) with
    | (Normal _, w') => (Normal {| run_id := runId; run_state := "cancelled" |}, w')
    | (Throw e, w') => (Throw e, w')
    end
  else
    match pipeline entityId credentials mode with
    | None =>
        match close runId "completed" None w with
        | (Normal _, w') => (Normal {| run_id := runId; run_state := "completed" |}, w')
        | (Throw e, w') => (Throw e, w')
        end
    | Some error =>
        match close runId "failed" (Some (message error)) w with
        | (Normal _, w') => (Throw error, w')
        | (Throw e, w') => (Throw e, w')
        end
    end.

(** Modelled from the spec: one run of the absent SyncOrchestrator, "On
    accept: insert a RunRecord with state running", then the body.  No
    record is looked up before the insertion: the specification notes that
    the source "does not perform this check explicitly". *)
Definition run (mode entityId credentials : string) (w : World)
  : Completion RunOutcome * World :=
  finish mode entityId credentials (open entityId mode w).

(** Modelled from the spec: the entry points of the absent [SyncService]
    that the scheduler and the routes call. *)
Definition syncService : @SyncService Registry RunOutcome :=
  @Build_SyncService Registry RunOutcome (run "incremental") (run "full") cancelSync.

End Run.

End Orchestrator.

(** Number of records of [channelId] in state [running]. *)
Definition count_running {ServiceState} (channelId : string) (w : @World ServiceState) : nat :=
  length (filter (λ r, log_channel_id r = channelId ∧ log_status r = "running") (sync_log w)).

(** The tasks of [channelId] that node-cron still fires. *)
Definition armed {ServiceState} (channelId : string) (st : @State ServiceState) : list Task :=
  filter (λ t, task_channel t = channelId ∧ task_running t = true) (tasks st).

(** [rows[0]] of [SELECT ... FROM channel WHERE id = $1]. *)
Definition lookup_channel {ServiceState} (channelId : string) (w : @World ServiceState)
  : option Channel :=
  head (filter (λ c, ch_id c = channelId) (channel w)).

(** Every armed task is the one the map holds for its channel. *)
Definition jobs_consistent {ServiceState} (st : @State ServiceState) : Prop :=
  ∀ h t, tasks st !! h = Some t → task_running t = true →
         jobs st !! task_channel t = Some h.

(** The state after [if (this.jobs.has(channelId)) this.jobs.get(channelId).stop()]. *)
Definition stop_existing {ServiceState} (channelId : string)
    (st : @State ServiceState) : State :=
  match jobs st !! channelId with
  | Some h => set_cron (alter stop_task h) (CronStop h) st
  | None => st
  end.

(** The trigger that [registerChannel] builds for a row of [channel]. *)
Definition trigger_of (channelId : string) (ch : Channel) : Task :=
  {| task_channel := channelId;
     task_cron := or_default (ch_sync_schedule ch) "0 2 * * *";
     task_api_key := ch_api_key ch; task_running := true |}.

(** What [registerChannel] leaves behind once the old task, if any, was
    stopped and the new one created. *)
Definition registered {ServiceState} (channelId : string) (ch : Channel)
    (st : @State ServiceState) : State :=
  let cronTime := or_default (ch_sync_schedule ch) "0 2 * * *" in
  let st1 := stop_existing channelId st in
  let st2 := add_console
               (ConsoleLog ("Scheduling channel " +:+ channelId +:+ " with cron: " +:+ cronTime))
               st1 in
  let h := length (tasks st2) in
  add_console
    (ConsoleLog ("Channel " +:+ channelId +:+ " registered for scheduled syncing"))
    (set_jobs (insert channelId h)
       (set_cron (λ ts, ts ++ [trigger_of channelId ch]) (CronSchedule h cronTime) st2)).

(** The call that [triggerManualSync] makes for a row, by sync type. *)
Definition service_call (syncType : string) (ch : Channel) : Call :=
  if String.eqb syncType "full"
  then CallFull (ch_id ch) (ch_api_key ch)
  else CallIncremental (ch_id ch) (ch_api_key ch).

Definition service_run {ServiceState SyncResult}
    (syncService : @SyncService ServiceState SyncResult)
    (syncType : string) (ch : Channel) (w : World)
  : Completion SyncResult * World :=
  if String.eqb syncType "full"
  then fullSync syncService (ch_id ch) (ch_api_key ch) w
  else incrementalSync syncService (ch_id ch) (ch_api_key ch) w.

(** The body of the loop of [triggerManualSync]. *)
Definition sync_row {ServiceState SyncResult}
    (syncService : @SyncService ServiceState SyncResult)
    (syncType : string) (channel : Channel) : M SyncResult :=
  bind (console_log ("Syncing channel " +:+ ch_id channel +:+ "..."))
    (λ _, if String.eqb syncType "full"
          then call_fullSync syncService (ch_id channel) (ch_api_key channel)
          else call_incrementalSync syncService (ch_id channel) (ch_api_key channel)).

(** Every entry of the map points to a task of its own channel. *)
Definition jobs_valid {ServiceState} (st : @State ServiceState) : Prop :=
  ∀ k h, jobs st !! k = Some h →
         ∃ t, tasks st !! h = Some t ∧ task_channel t = k.

(** The database reached when the syncs of [rows] are run one after the
    other, each from what the one before left, and all return normally;
    [None] when one of them throws. *)
Fixpoint runs_through {ServiceState SyncResult}
    (syncService : @SyncService ServiceState SyncResult)
    (syncType : string) (rows : list Channel) (w : World) : option World :=
  match rows with
  | [] => Some w
  | ch :: rows' =>
      match service_run syncService syncType ch w with
      | (Normal _, w') => runs_through syncService syncType rows' w'
      | (Throw _, _) => None
      end
  end.

(** The line that the loop of [triggerManualSync] writes for a row. *)
Definition syncing_line (ch : Channel) : ConsoleLine :=
  ConsoleLog ("Syncing channel " +:+ ch_id ch +:+ "...").

(** The body of the loop of [stopAll]. *)
Definition stop_entry {ServiceState} (entry : string * nat) : @M ServiceState unit :=
  bind (cron_stop (snd entry))
    (λ _, console_log ("Stopped scheduled job for channel " +:+ fst entry)).

(** [stopAll()] with the entries of the map visited in the order of
    [entries]. *)
Definition stopAll_in {ServiceState} (entries : list (string * nat))
  : @M ServiceState unit :=
  bind (for_of entries stop_entry)
    (λ _, bind (modify (set_jobs (λ _, ∅)))
            (λ _, console_log "All scheduled jobs stopped")).

(** The schedule of [st'] is that of [st]: same map, same tasks, same calls
    made to node-cron. *)
Definition same_schedule {ServiceState} (st st' : @State ServiceState) : Prop :=
  jobs st' = jobs st ∧ tasks st' = tasks st ∧ cron_trace st' = cron_trace st.

(** What can happen to a scheduler during its life: a call of one of its
    methods, the firing of a task, or a change of the database made
    elsewhere. *)
Inductive SchedulerOp {ServiceState : Type} :=
| OpRegister (channelId : string)
| OpUnregister (channelId : string)
| OpUpdate (channelId : string)
| OpInitialize
| OpStopAll
| OpFire (h : nat)
| OpManualSync (syncType : string) (channelId : option string)
| OpDatabase (f : @World ServiceState → @World ServiceState).

Definition run_op {ServiceState SyncResult}
    (syncService : @SyncService ServiceState SyncResult)
    (cron_validate : string → option JsError)
    (st : @State ServiceState) (op : @SchedulerOp ServiceState) : State :=
  match op with
  | OpRegister c => snd (registerChannel cron_validate c st)
  | OpUnregister c => snd (unregisterChannel c st)
  | OpUpdate c => snd (updateChannel cron_validate c st)
  | OpInitialize => snd (initialize cron_validate st)
  | OpStopAll => snd (stopAll st)
  | OpFire h => snd (fire syncService h st)
  | OpManualSync syncType c => snd (triggerManualSync syncService syncType c st)
  | OpDatabase f => set_world None (f (world st)) st
  end.

(** The table [channel] after the [UPDATE] of [PUT /api/channels/:id]. *)
Definition put_rows {ServiceState} (id : string) (body : PutBody)
    (w : @World ServiceState) : World :=
  set_channel
    (fmap (λ c, if bool_decide (ch_id c = id) then apply_put body c else c)) w.

(** ** Sample data *)

Module Sample.

Definition chA : Channel :=
  {| ch_id := "A"; ch_sync_schedule := None; ch_api_key := "kA"; ch_sync_enabled := true |}.
Definition chB : Channel :=
  {| ch_id := "B"; ch_sync_schedule := Some "0 */6 * * *"; ch_api_key := "kB";
     ch_sync_enabled := true |}.
Definition chC : Channel :=
  {| ch_id := "C"; ch_sync_schedule := Some ""; ch_api_key := "kC"; ch_sync_enabled := true |}.
Definition chD : Channel :=
  {| ch_id := "D"; ch_sync_schedule := Some "0 3 * * 0"; ch_api_key := "kD";
     ch_sync_enabled := false |}.

Definition boom : JsError := MkError "quota exceeded".

(** node-cron accepting every expression. *)
Definition accept_all : string → option JsError := λ _, None.

(** A sync service without state whose runs for "B" raise. *)
Definition failing_B : @SyncService unit nat :=
  {| incrementalSync := λ i _ w, (if String.eqb i "B" then Throw boom else Normal 1, w);
     fullSync := λ i _ w, (if String.eqb i "B" then Throw boom else Normal 2, w);
     cancelSync := λ _ s, s |}.

Definition w0 : @World unit :=
  {| channel := [chA; chB; chC; chD]; sync_log := []; service := tt;
     current_timestamp := 5 |}.

(** The pipeline that always completes. *)
Definition pipeline_ok : string → string → string → option JsError := λ _ _ _, None.

Definition row (i : nat) (c status : string) (t : nat) : SyncLog :=
  {| log_id := i; log_channel_id := c; log_sync_type := "incremental";
     log_status := status; log_started_at := t; log_completed_at := None;
     log_errors := None |}.

(** A database in which a run of "A" and a run of "B" are in progress. *)
Definition w_running : Orchestrator.World :=
  {| channel := [chA; chB];
     sync_log := [row 0 "A" "running" 1; row 1 "B" "running" 2;
                  {| log_id := 2; log_channel_id := "A"; log_sync_type := "full";
                     log_status := "completed"; log_started_at := 0;
                     log_completed_at := Some 1; log_errors := None |}];
     service := Orchestrator.empty_registry;
     current_timestamp := 9 |}.

(** The application once [index.js] has set its scheduler and sync
    service. *)
Definition serving {ServiceState} (w : @World ServiceState) : State :=
  {| jobs := ∅; tasks := []; cron_trace := []; console := []; calls := [];
     app_scheduler := true; app_syncService := true; world := w |}.

(** The pipeline that fails for "B". *)
Definition pipeline_B_fails : string → string → string → option JsError :=
  λ entityId _ _, if String.eqb entityId "B" then Some boom else None.

(** The sample database, for the sync service of the specification. *)
Definition w_abc : Orchestrator.World :=
  {| channel := [chA; chB; chC; chD]; sync_log := [];
     service := Orchestrator.empty_registry; current_timestamp := 5 |}.

(** The scheduler after [initialize] on the sample database: handle 0 is the
    trigger of "A", 1 of "B", 2 of "C". *)
Definition started : State := snd (initialize accept_all (constructor w0)).

(** The sample database with its two runs in progress, served. *)
Definition in_progress : State := serving w_running.

(** node-cron refusing the expression "every day". *)
Definition refuse_words : string → option JsError :=
  λ s, if String.eqb s "every day"
       then Some (MkError "every day is a invalid expression for minute")
       else None.

Definition chE : Channel :=
  {| ch_id := "E"; ch_sync_schedule := Some "every day"; ch_api_key := "kE";
     ch_sync_enabled := true |}.

(** A served database in which "E" was registered while its expression was
    still the daily one. *)
Definition with_E : @State unit :=
  let w := {| channel := [ {| ch_id := "E"; ch_sync_schedule := None;
                              ch_api_key := "kE"; ch_sync_enabled := true |} ];
              sync_log := []; service := tt; current_timestamp := 5 |} in
  set_world None
    {| channel := [chE]; sync_log := []; service := tt; current_timestamp := 6 |}
    (snd (registerChannel refuse_words "E" (serving w))).

(** The YouTube API knowing every channel under the id asked for. *)
Definition youtube : string → string → Completion ChannelDetails :=
  λ _ channelId,
    Normal {| cd_id := channelId; cd_title := "Some channel"; cd_customUrl := "@some" |}.

(** The sample database served, after [initialize]. *)
Definition serving_started : State := snd (initialize accept_all (serving w0)).

End Sample.

(** * Properties *)

Section SchedulerFacts.

Context {ServiceState SyncResult : Type}.
Variable syncService : @SyncService ServiceState SyncResult.
Variable cron_validate : string → option JsError.

Implicit Types (st : @State ServiceState) (w : @World ServiceState).

Ltac unfold_m :=
  unfold mbind, M_bind, mret, M_ret, bind, ret, throw, try_catch, get, modify,
    modify_world, console_log, console_error, select_channel, select_enabled,
    cron_stop in *.

Lemma lookup_channel_None channelId w :
  lookup_channel channelId w = None →
  filter (λ c, ch_id c = channelId) (channel w) = [].
Proof. unfold lookup_channel. by destruct (filter _ _). Qed.

Lemma lookup_channel_Some channelId w ch :
  lookup_channel channelId w = Some ch →
  ∃ rest, filter (λ c, ch_id c = channelId) (channel w) = ch :: rest.
Proof.
  unfold lookup_channel. destruct (filter _ _) as [|c rest]; [done|].
  simpl. intros [= ->]. by exists rest.
Qed.

Lemma registerChannel_missing channelId st :
  lookup_channel channelId (world st) = None →
  registerChannel cron_validate channelId st
  = (Normal tt,
     add_console
       (ConsoleError ("Channel " +:+ channelId +:+ " not found in database") None) st).
Proof.
  intros H%lookup_channel_None. unfold registerChannel. unfold_m.
  by rewrite H.
Qed.

Lemma registerChannel_disabled channelId ch st :
  lookup_channel channelId (world st) = Some ch →
  ch_sync_enabled ch = false →
  registerChannel cron_validate channelId st
  = (Normal tt,
     add_console
       (ConsoleLog ("Channel " +:+ channelId +:+ " sync is disabled, skipping registration"))
       st).
Proof.
  intros [rest H]%lookup_channel_Some Hd. unfold registerChannel. unfold_m.
  by rewrite H, Hd.
Qed.

Lemma registerChannel_enabled channelId ch st :
  lookup_channel channelId (world st) = Some ch →
  ch_sync_enabled ch = true →
  cron_validate (or_default (ch_sync_schedule ch) "0 2 * * *") = None →
  registerChannel cron_validate channelId st = (Normal tt, registered channelId ch st).
Proof.
  intros [rest H]%lookup_channel_Some He Hv.
  unfold registerChannel, registered, stop_existing, cron_schedule. unfold_m.
  rewrite H, He. simpl.
  destruct (jobs st !! channelId) as [h|]; simpl; by rewrite Hv.
Qed.

Lemma registerChannel_refused channelId ch e st :
  lookup_channel channelId (world st) = Some ch →
  ch_sync_enabled ch = true →
  cron_validate (or_default (ch_sync_schedule ch) "0 2 * * *") = Some e →
  registerChannel cron_validate channelId st
  = (Normal tt,
     add_console
       (ConsoleError ("Error registering channel " +:+ channelId +:+ ":") (Some e))
       (add_console
          (ConsoleLog ("Scheduling channel " +:+ channelId +:+ " with cron: "
                       +:+ or_default (ch_sync_schedule ch) "0 2 * * *"))
          (stop_existing channelId st))).
Proof.
  intros [rest H]%lookup_channel_Some He Hv.
  unfold registerChannel, stop_existing, cron_schedule. unfold_m.
  rewrite H, He. simpl.
  destruct (jobs st !! channelId) as [h|]; simpl; by rewrite Hv.
Qed.

Lemma unregisterChannel_eq channelId st :
  unregisterChannel channelId st
  = (Normal tt,
     match jobs st !! channelId with
     | Some h =>
         add_console
           (ConsoleLog ("Channel " +:+ channelId +:+ " unregistered from scheduled syncing"))
           (set_jobs (delete channelId) (stop_existing channelId st))
     | None => st
     end).
Proof.
  unfold unregisterChannel, stop_existing. unfold_m.
  by destruct (jobs st !! channelId).
Qed.

(** [registerChannel] always returns normally: its [try] covers its whole
    body. *)
Lemma registerChannel_normal channelId st :
  fst (registerChannel cron_validate channelId st) = Normal tt.
Proof.
  destruct (lookup_channel channelId (world st)) as [ch|] eqn:Hl.
  - destruct (ch_sync_enabled ch) eqn:He.
    + destruct (cron_validate (or_default (ch_sync_schedule ch) "0 2 * * *")) as [e|] eqn:Hv.
      * by erewrite registerChannel_refused.
      * by erewrite registerChannel_enabled.
    + by erewrite registerChannel_disabled.
  - by rewrite registerChannel_missing.
Qed.

(** *** Armed tasks *)

Lemma filter_nil_lookup {A} (P : A → Prop) `{!∀ x, Decision (P x)} (l : list A) :
  (∀ i x, l !! i = Some x → ¬ P x) → filter P l = [].
Proof.
  induction l as [|a l IH]; intros Hl; [done|].
  rewrite filter_cons_False; [|exact (Hl 0 a eq_refl)].
  apply IH. intros i x Hi. exact (Hl (S i) x Hi).
Qed.

Lemma armed_add_console channelId l st :
  armed channelId (add_console l st) = armed channelId st.
Proof. done. Qed.

Lemma jobs_consistent_add_console l st :
  jobs_consistent st → jobs_consistent (add_console l st).
Proof. done. Qed.

Lemma stop_existing_lookup channelId st h t :
  tasks (stop_existing channelId st) !! h = Some t →
  task_running t = true →
  tasks st !! h = Some t ∧ jobs st !! channelId ≠ Some h.
Proof.
  unfold stop_existing. destruct (jobs st !! channelId) as [h0|] eqn:Hj; simpl.
  - intros Ht Hr. destruct (decide (h0 = h)) as [->|Hne].
    + rewrite list_lookup_alter_eq in Ht.
      destruct (tasks st !! h); simplify_eq/=. 
    + rewrite list_lookup_alter_ne in Ht by done. split; [done|congruence].
  - by intros Ht _.
Qed.

Lemma stop_existing_jobs channelId st :
  jobs (stop_existing channelId st) = jobs st.
Proof. unfold stop_existing. by destruct (jobs st !! channelId). Qed.

Lemma stop_existing_length channelId st :
  length (tasks (stop_existing channelId st)) = length (tasks st).
Proof.
  unfold stop_existing. destruct (jobs st !! channelId); simpl; [|done].
  apply length_alter.
Qed.

Lemma stop_existing_world channelId st :
  world (stop_existing channelId st) = world st.
Proof. unfold stop_existing. by destruct (jobs st !! channelId). Qed.

Lemma jobs_consistent_stop_existing channelId st :
  jobs_consistent st → jobs_consistent (stop_existing channelId st).
Proof.
  intros Hc h t Ht Hr. rewrite stop_existing_jobs.
  apply stop_existing_lookup in Ht as [Ht _]; auto.
Qed.

(** Once the task of the map is stopped, nothing is armed for the channel. *)
Lemma armed_stop_existing channelId st :
  jobs_consistent st → armed channelId (stop_existing channelId st) = [].
Proof.
  intros Hc. apply filter_nil_lookup. intros h t Ht [Hch Hr].
  apply stop_existing_lookup in Ht as [Ht Hne]; [|done].
  pose proof (Hc _ _ Ht Hr) as Hj. rewrite <- Hch in Hne. congruence.
Qed.

(** Stopping a task arms nothing. *)
Lemma armed_stop_existing_nil channelId c st :
  armed c st = [] → armed c (stop_existing channelId st) = [].
Proof.
  intros Ha. apply filter_nil_lookup. intros h t Ht [Hch Hr].
  apply stop_existing_lookup in Ht as [Ht _]; [|done].
  apply list_elem_of_lookup_2 in Ht.
  revert Ht. eapply filter_nil_not_elem_of; [exact Ha|]. by split.
Qed.

Lemma jobs_consistent_constructor w : jobs_consistent (constructor w).
Proof. intros h t Ht. done. Qed.

Lemma jobs_consistent_registered channelId ch st :
  jobs_consistent st → jobs_consistent (registered channelId ch st).
Proof.
  intros Hc h t. unfold registered. simpl.
  rewrite stop_existing_jobs.
  intros Ht Hr. apply lookup_app_Some in Ht as [Ht|[Hlen Ht]].
  - pose proof Ht as Hlt%lookup_lt_Some.
    apply stop_existing_lookup in Ht as [Ht Hne]; [|done].
    pose proof (Hc _ _ Ht Hr) as Hj.
    rewrite lookup_insert_ne; [done|]. intros Heq. congruence.
  - destruct (h - length (tasks (stop_existing channelId st))) as [|n] eqn:Hn;
      simplify_eq/=.
    rewrite lookup_insert_eq. f_equal. lia.
Qed.

Lemma jobs_consistent_registerChannel channelId st :
  jobs_consistent st →
  jobs_consistent (snd (registerChannel cron_validate channelId st)).
Proof.
  intros Hc.
  destruct (lookup_channel channelId (world st)) as [ch|] eqn:Hl.
  - destruct (ch_sync_enabled ch) eqn:He.
    + destruct (cron_validate (or_default (ch_sync_schedule ch) "0 2 * * *")) as [e|] eqn:Hv.
      * erewrite registerChannel_refused by done. simpl.
        by apply jobs_consistent_stop_existing.
      * erewrite registerChannel_enabled by done.
        by apply jobs_consistent_registered.
    + by erewrite registerChannel_disabled.
  - by rewrite registerChannel_missing.
Qed.

Lemma jobs_consistent_unregisterChannel channelId st :
  jobs_consistent st →
  jobs_consistent (snd (unregisterChannel channelId st)).
Proof.
  intros Hc. rewrite unregisterChannel_eq. simpl.
  destruct (jobs st !! channelId) as [h0|] eqn:Hj; [|done].
  intros h t. simpl. rewrite stop_existing_jobs. intros Ht Hr.
  apply stop_existing_lookup in Ht as [Ht Hne]; [|done].
  pose proof (Hc _ _ Ht Hr) as Hj'.
  rewrite lookup_delete_ne; [done|]. intros Heq. congruence.
Qed.

Lemma updateChannel_eq channelId st :
  updateChannel cron_validate channelId st
  = registerChannel cron_validate channelId (snd (unregisterChannel channelId st)).
Proof.
  unfold updateChannel. unfold_m. by rewrite unregisterChannel_eq.
Qed.

Lemma jobs_consistent_updateChannel channelId st :
  jobs_consistent st →
  jobs_consistent (snd (updateChannel cron_validate channelId st)).
Proof.
  intros Hc. rewrite updateChannel_eq.
  by apply jobs_consistent_registerChannel, jobs_consistent_unregisterChannel.
Qed.


(** *** register and update *)

Lemma armed_registered channelId ch st :
  jobs_consistent st →
  armed channelId (registered channelId ch st) = [trigger_of channelId ch].
Proof.
  intros Hc. unfold armed, registered. simpl.
  rewrite filter_app. fold (armed channelId (stop_existing channelId st)).
  rewrite armed_stop_existing by done. simpl.
  rewrite filter_cons_True; [done|by split].
Qed.

Lemma jobs_registered channelId ch st :
  jobs (registered channelId ch st) !! channelId = Some (length (tasks st))
  ∧ tasks (registered channelId ch st) !! length (tasks st)
    = Some (trigger_of channelId ch).
Proof.
  unfold registered. simpl. rewrite lookup_insert_eq, stop_existing_length.
  split; [done|].
  rewrite lookup_app_r; rewrite stop_existing_length; [|done].
  by rewrite Nat.sub_diag.
Qed.

Lemma trace_registered channelId ch st h :
  jobs st !! channelId = Some h →
  cron_trace (registered channelId ch st)
  = cron_trace st
    ++ [CronStop h;
        CronSchedule (length (tasks st)) (or_default (ch_sync_schedule ch) "0 2 * * *")]
  ∧ ∀ t, tasks st !! h = Some t →
         tasks (registered channelId ch st) !! h = Some (stop_task t).
Proof.
  intros Hj. unfold registered, stop_existing. rewrite Hj. simpl.
  rewrite length_alter, <- app_assoc. split; [done|].
  intros t Ht. rewrite lookup_app_l.
  - by rewrite list_lookup_alter_eq, Ht.
  - rewrite length_alter. by eapply lookup_lt_Some.
Qed.

Lemma unregisterChannel_world channelId st :
  world (snd (unregisterChannel channelId st)) = world st.
Proof.
  rewrite unregisterChannel_eq. simpl.
  destruct (jobs st !! channelId); [|done]. simpl. apply stop_existing_world.
Qed.

Lemma unregisterChannel_jobs channelId st :
  jobs (snd (unregisterChannel channelId st)) !! channelId = None.
Proof.
  rewrite unregisterChannel_eq. simpl.
  destruct (jobs st !! channelId) eqn:Hj; [|done]. simpl. apply lookup_delete_eq.
Qed.

(** C4, as the code has it.  For an enabled entity the trigger is built
    from the entity's expression, the fixed daily expression standing in for
    an absent or empty one.  When node-cron accepts the expression:
    [registerChannel] arms the trigger; where the map held a trigger for the
    entity, that trigger is stopped first, then the new one is created and
    takes its place in the map; and after [updateChannel] exactly one trigger
    is armed for the entity, the one of the map, built from the current
    expression.  When node-cron refuses the expression: [registerChannel]
    has stopped the trigger of the map before the refusal, catches the error
    and writes it to the console, and after [updateChannel] no trigger is
    armed for the entity and the map has no entry for it. *)
Theorem updateChannel_one_trigger channelId ch st :
  jobs_consistent st →
  lookup_channel channelId (world st) = Some ch →
  ch_sync_enabled ch = true →
  (* the expression the trigger is built from *)
  ((ch_sync_schedule ch = None → task_cron (trigger_of channelId ch) = "0 2 * * *")
   ∧ (∀ s, ch_sync_schedule ch = Some s → s ≠ "" →
           task_cron (trigger_of channelId ch) = s))
  (* node-cron accepts the expression *)
  ∧ (cron_validate (task_cron (trigger_of channelId ch)) = None →
     (* register *)
     (let st' := snd (registerChannel cron_validate channelId st) in
      armed channelId st' = [trigger_of channelId ch]
      ∧ jobs st' !! channelId = Some (length (tasks st))
      ∧ tasks st' !! length (tasks st) = Some (trigger_of channelId ch)
      ∧ ∀ h, jobs st !! channelId = Some h →
          cron_trace st'
          = cron_trace st
            ++ [CronStop h;
                CronSchedule (length (tasks st)) (task_cron (trigger_of channelId ch))]
          ∧ ∀ t, tasks st !! h = Some t → tasks st' !! h = Some (stop_task t))
     (* update *)
     ∧ (let st' := snd (updateChannel cron_validate channelId st) in
        armed channelId st' = [trigger_of channelId ch]
        ∧ length (armed channelId st') = 1
        ∧ ∃ h', jobs st' !! channelId = Some h'
                ∧ tasks st' !! h' = Some (trigger_of channelId ch)))
  (* node-cron refuses the expression *)
  ∧ (∀ e, cron_validate (task_cron (trigger_of channelId ch)) = Some e →
     (* register *)
     (let r := registerChannel cron_validate channelId st in
      fst r = Normal tt
      ∧ armed channelId (snd r) = []
      ∧ jobs (snd r) = jobs st
      ∧ last (console (snd r))
        = Some (ConsoleError ("Error registering channel " +:+ channelId +:+ ":")
                  (Some e))
      ∧ ∀ h, jobs st !! channelId = Some h →
          cron_trace (snd r) = cron_trace st ++ [CronStop h]
          ∧ ∀ t, tasks st !! h = Some t → tasks (snd r) !! h = Some (stop_task t))
     (* update *)
     ∧ (let r := updateChannel cron_validate channelId st in
        fst r = Normal tt
        ∧ armed channelId (snd r) = []
        ∧ length (armed channelId (snd r)) = 0
        ∧ jobs (snd r) !! channelId = None)).
Proof.
  intros Hc Hl He. split; [|split].
  - split.
    + intros Hn. simpl. by rewrite Hn.
    + intros s Hs Hne. simpl. rewrite Hs. simpl.
      by apply String.eqb_neq in Hne as ->.
  - intros Hv. simpl in Hv. split.
    + simpl. rewrite (registerChannel_enabled _ ch) by done. simpl.
      split; [by apply armed_registered|].
      destruct (jobs_registered channelId ch st) as [Hj Ht].
      split; [done|]. split; [done|].
      intros h Hh. by apply trace_registered.
    + simpl. rewrite updateChannel_eq.
      pose proof (jobs_consistent_unregisterChannel channelId st Hc) as Hc'.
      rewrite (registerChannel_enabled _ ch);
        [|by rewrite unregisterChannel_world|done|done].
      simpl. rewrite armed_registered by done.
      split; [done|]. split; [done|].
      eexists. apply jobs_registered.
  - intros e Hv. simpl in Hv. split.
    + simpl. rewrite (registerChannel_refused _ ch e) by done. simpl.
      rewrite stop_existing_jobs, last_snoc.
      split; [done|]. split; [by apply armed_stop_existing|].
      split; [done|]. split; [done|].
      intros h Hh. unfold stop_existing. rewrite Hh. simpl.
      split; [done|]. intros t Ht. by rewrite list_lookup_alter_eq, Ht.
    + simpl. rewrite updateChannel_eq.
      pose proof (jobs_consistent_unregisterChannel channelId st Hc) as Hc'.
      rewrite (registerChannel_refused _ ch e);
        [|by rewrite unregisterChannel_world|done|done].
      cbn [fst snd]. rewrite !armed_add_console.
      rewrite armed_stop_existing by done.
      split; [done|]. split; [done|]. split; [done|].
      simpl. rewrite stop_existing_jobs.
      apply unregisterChannel_jobs.
Qed.

(** C8. When the entity does not exist or is not enabled, [registerChannel]
    returns normally and changes neither the map nor node-cron's tasks: no
    trigger is created or stopped, and nothing but the console is written. *)
Theorem registerChannel_skips channelId st :
  (lookup_channel channelId (world st) = None
   ∨ ∃ ch, lookup_channel channelId (world st) = Some ch
           ∧ ch_sync_enabled ch = false) →
  let r := registerChannel cron_validate channelId st in
  fst r = Normal tt
  ∧ jobs (snd r) = jobs st ∧ tasks (snd r) = tasks st
  ∧ cron_trace (snd r) = cron_trace st
  ∧ calls (snd r) = calls st ∧ world (snd r) = world st.
Proof.
  intros [Hl|(ch & Hl & Hd)]; simpl.
  - by rewrite registerChannel_missing.
  - by rewrite (registerChannel_disabled _ ch).
Qed.

(** *** initialize *)

Lemma registerChannel_world channelId st :
  world (snd (registerChannel cron_validate channelId st)) = world st.
Proof.
  destruct (lookup_channel channelId (world st)) as [ch|] eqn:Hl.
  - destruct (ch_sync_enabled ch) eqn:He.
    + destruct (cron_validate (or_default (ch_sync_schedule ch) "0 2 * * *")) as [e|] eqn:Hv.
      * erewrite registerChannel_refused by done. apply stop_existing_world.
      * erewrite registerChannel_enabled by done. apply stop_existing_world.
    + by erewrite registerChannel_disabled.
  - by rewrite registerChannel_missing.
Qed.

(** Registering one channel arms nothing for another and leaves the other's
    entry of the map alone. *)
Lemma registerChannel_other channelId c st :
  channelId ≠ c →
  let st' := snd (registerChannel cron_validate channelId st) in
  jobs st' !! c = jobs st !! c ∧ (armed c st = [] → armed c st' = []).
Proof.
  intros Hne. simpl.
  destruct (lookup_channel channelId (world st)) as [ch|] eqn:Hl.
  - destruct (ch_sync_enabled ch) eqn:He.
    + destruct (cron_validate (or_default (ch_sync_schedule ch) "0 2 * * *")) as [e|] eqn:Hv.
      * erewrite registerChannel_refused by done. simpl.
        rewrite stop_existing_jobs. split; [done|].
        apply armed_stop_existing_nil.
      * erewrite registerChannel_enabled by done. unfold registered. simpl.
        rewrite stop_existing_jobs, lookup_insert_ne by done. split; [done|].
        intros Ha. unfold armed. simpl. rewrite filter_app.
        fold (armed c (stop_existing channelId st)).
        rewrite armed_stop_existing_nil by done. simpl.
        rewrite filter_cons_False; [done|]. simpl. by intros [? _].
    + by erewrite registerChannel_disabled.
  - by rewrite registerChannel_missing.
Qed.

Lemma for_of_registerChannel (I : State → Prop) (rows : list Channel) st :
  (∀ channelId st, I st → I (snd (registerChannel cron_validate channelId st))) →
  I st →
  let r := for_of rows (λ channel, registerChannel cron_validate (ch_id channel)) st in
  fst r = Normal tt ∧ I (snd r).
Proof.
  intros Hstep. revert st. induction rows as [|ch rows IH]; intros st HI; [done|].
  simpl. unfold mbind, M_bind, bind.
  pose proof (registerChannel_normal (ch_id ch) st) as Hn.
  pose proof (Hstep (ch_id ch) st HI) as HI'.
  destruct (registerChannel cron_validate (ch_id ch) st) as [[[]|e] st1];
    simplify_eq/=.
  by apply IH.
Qed.

Lemma initialize_eq st :
  let rows := filter (λ c, ch_sync_enabled c = true) (channel (world st)) in
  let st0 := add_console
               (ConsoleLog "Initializing scheduler with channels from database...") st in
  let r := for_of rows (λ channel, registerChannel cron_validate (ch_id channel)) st0 in
  initialize cron_validate st
  = (Normal tt,
     add_console
       (ConsoleLog ("Scheduler initialized with " +:+ pretty (length rows) +:+ " channels"))
       (snd r)).
Proof.
  simpl. unfold initialize. unfold_m. simpl.
  match goal with
  | |- context [for_of ?rows ?body ?st0] =>
      pose proof (for_of_registerChannel (λ _, True) rows st0 (λ _ _ _, I) I) as [Hn _];
      destruct (for_of rows body st0) as [[[]|e] st1]
  end; by simplify_eq/=.
Qed.

Lemma jobs_consistent_initialize st :
  jobs_consistent st → jobs_consistent (snd (initialize cron_validate st)).
Proof.
  intros Hc. rewrite initialize_eq. simpl.
  match goal with
  | |- context [for_of ?rows ?body ?st0] =>
      by destruct (for_of_registerChannel jobs_consistent rows st0
                     jobs_consistent_registerChannel) as [_ ?]
  end.
Qed.

(** C5. An entity that is not enabled and has no trigger when [initialize]
    starts, as for a scheduler just constructed, has none when it completes:
    no entry in the map and no armed task.  [initialize] returns normally. *)
Theorem initialize_skips_disabled c ch st :
  lookup_channel c (world st) = Some ch →
  ch_sync_enabled ch = false →
  jobs st !! c = None →
  armed c st = [] →
  let r := initialize cron_validate st in
  fst r = Normal tt ∧ jobs (snd r) !! c = None ∧ armed c (snd r) = [].
Proof.
  intros Hl Hd Hj Ha. simpl. rewrite initialize_eq. simpl. split; [done|].
  set (I := λ st' : State,
         world st' = world st ∧ jobs st' !! c = None ∧ armed c st' = []).
  match goal with
  | |- context [for_of ?rows ?body ?st0] =>
      destruct (for_of_registerChannel I rows st0) as [_ (_ & Hj' & Ha')]
  end; [| |done].
  - intros channelId st' (Hw & Hj' & Ha').
    split; [by rewrite registerChannel_world|].
    destruct (decide (channelId = c)) as [->|Hne].
    + rewrite (registerChannel_disabled _ ch); [done| |done]. by rewrite Hw.
    + destruct (registerChannel_other channelId c st' Hne) as [H1 H2].
      rewrite H1. auto.
  - done.
Qed.

(** *** Firing *)

Lemma cron_callback_eq t st :
  cron_callback syncService t st
  = let st0 := add_console
                 (ConsoleLog ("Starting scheduled incremental sync for "
                              +:+ task_channel t +:+ "...")) st in
    let c := CallIncremental (task_channel t) (task_api_key t) in
    match incrementalSync syncService (task_channel t) (task_api_key t) (world st) with
    | (Normal _, w) =>
        (Normal tt,
         add_console
           (ConsoleLog ("Scheduled sync completed successfully for " +:+ task_channel t))
           (set_world (Some c) w st0))
    | (Throw e, w) =>
        (Normal tt,
         add_console
           (ConsoleError ("Scheduled sync failed for " +:+ task_channel t +:+ ":") (Some e))
           (set_world (Some c) w st0))
    end.
Proof.
  unfold cron_callback, call_incrementalSync. unfold_m. simpl.
  by destruct (incrementalSync _ _ _ _) as [[v|e] w].
Qed.

Lemma fire_armed h t st :
  tasks st !! h = Some t → task_running t = true →
  fire syncService h st = cron_callback syncService t st.
Proof. intros Ht Hr. unfold fire. unfold_m. by rewrite Ht, Hr. Qed.

(** A firing hands the sync service the channel id and the key that the
    task holds. *)
Lemma fire_calls h t st :
  tasks st !! h = Some t → task_running t = true →
  calls (snd (fire syncService h st))
  = calls st ++ [CallIncremental (task_channel t) (task_api_key t)].
Proof.
  intros Ht Hr. rewrite (fire_armed h t) by done. rewrite cron_callback_eq. simpl.
  by destruct (incrementalSync _ _ _ _) as [[v|e] w].
Qed.

Lemma fire_world h t st :
  tasks st !! h = Some t → task_running t = true →
  world (snd (fire syncService h st))
  = snd (incrementalSync syncService (task_channel t) (task_api_key t) (world st)).
Proof.
  intros Ht Hr. rewrite (fire_armed h t) by done. rewrite cron_callback_eq. simpl.
  by destruct (incrementalSync _ _ _ _) as [[v|e] w].
Qed.

(** C6. When the firing of an armed trigger raises, the callback still
    returns normally: the error is written to the console, the map and every
    task of node-cron, this one included, are as before, so the trigger stays
    registered and armed and no other trigger is touched. *)
Theorem fire_failure_contained h t e w' st :
  tasks st !! h = Some t →
  task_running t = true →
  incrementalSync syncService (task_channel t) (task_api_key t) (world st)
  = (Throw e, w') →
  let r := fire syncService h st in
  fst r = Normal tt
  ∧ jobs (snd r) = jobs st
  ∧ tasks (snd r) = tasks st
  ∧ cron_trace (snd r) = cron_trace st
  ∧ console (snd r)
    = console st
      ++ [ConsoleLog ("Starting scheduled incremental sync for " +:+ task_channel t +:+ "...");
          ConsoleError ("Scheduled sync failed for " +:+ task_channel t +:+ ":") (Some e)].
Proof.
  intros Ht Hr Hs. simpl. rewrite (fire_armed h t) by done.
  rewrite cron_callback_eq. simpl. rewrite Hs. simpl.
  by rewrite <- app_assoc.
Qed.

(** *** triggerManualSync *)

Lemma sync_row_eq syncType ch st :
  sync_row syncService syncType ch st
  = (fst (service_run syncService syncType ch (world st)),
     set_world (Some (service_call syncType ch))
       (snd (service_run syncService syncType ch (world st)))
       (add_console (ConsoleLog ("Syncing channel " +:+ ch_id ch +:+ "...")) st)).
Proof.
  unfold sync_row, service_run, service_call, call_fullSync, call_incrementalSync.
  unfold_m. simpl.
  destruct (String.eqb syncType "full"); simpl;
    by match goal with |- context [?f syncService ?a ?b ?w] =>
         destruct (f syncService a b w) end.
Qed.

Lemma for_of_push_through syncType (pre rest : list Channel)
    (acc : list SyncResult) w1 st :
  runs_through syncService syncType pre (world st) = Some w1 →
  ∃ acc' st',
    for_of_push (pre ++ rest) (sync_row syncService syncType) acc st
    = for_of_push rest (sync_row syncService syncType) acc' st'
    ∧ length acc' = length acc + length pre
    ∧ calls st' = calls st ++ (service_call syncType <$> pre)
    ∧ console st' = console st ++ (syncing_line <$> pre)
    ∧ world st' = w1.
Proof.
  revert acc st. induction pre as [|ch pre IH]; intros acc st Hrun.
  - exists acc, st. simpl in *. rewrite !app_nil_r, Nat.add_0_r.
    by injection Hrun as <-.
  - simpl in Hrun.
    destruct (service_run syncService syncType ch (world st)) as [[v|e] w'] eqn:Hch;
      [|done].
    simpl. unfold mbind, M_bind, bind at 1. rewrite sync_row_eq, Hch. simpl.
    destruct (IH (acc ++ [v])
                (set_world (Some (service_call syncType ch)) w'
                   (add_console (syncing_line ch) st)) Hrun)
      as (acc' & st' & Heq & Hlen & Hcalls & Hcons & Hw).
    exists acc', st'. split; [done|]. split; [|split; [|split]].
    + rewrite Hlen, length_app. simpl. lia.
    + rewrite Hcalls. simpl. by rewrite <- app_assoc.
    + rewrite Hcons. simpl. by rewrite <- app_assoc.
    + done.
Qed.

(** Every sync of all channels is one of the two cases of the theorem below:
    the enabled rows split into the rows whose syncs return normally, one
    after the other, and the rest, which is empty or starts with a row whose
    sync throws from the database reached. *)
Lemma runs_through_split syncType (rows : list Channel) w :
  ∃ pre rest w1,
    rows = pre ++ rest
    ∧ runs_through syncService syncType pre w = Some w1
    ∧ (rest = []
       ∨ ∃ b post e, rest = b :: post
                     ∧ fst (service_run syncService syncType b w1) = Throw e).
Proof.
  revert w. induction rows as [|ch rows IH]; intros w.
  - exists [], [], w. split; [done|]. split; [done|]. by left.
  - destruct (service_run syncService syncType ch w) as [[v|e] w'] eqn:Hch.
    + destruct (IH w') as (pre & rest & w1 & -> & Hrun & Hrest).
      exists (ch :: pre), rest, w1. split; [done|]. split; [|done].
      simpl. by rewrite Hch.
    + exists [], (ch :: rows), w. split; [done|]. split; [done|].
      right. exists ch, rows, e. split; [done|]. by rewrite Hch.
Qed.

Lemma triggerManualSync_all_eq syncType st :
  triggerManualSync syncService syncType None st
  = let st0 := add_console
                 (ConsoleLog ("Triggering manual " +:+ syncType
                              +:+ " sync for all enabled channels...")) st in
    let rows := filter (λ c, ch_sync_enabled c = true) (channel (world st)) in
    match for_of_push rows (sync_row syncService syncType) [] st0 with
    | (Normal results, st1) => (Normal (SyncedAll (length results)), st1)
    | (Throw e, st1) =>
        (Throw e, add_console (ConsoleError "Manual sync failed:" (Some e)) st1)
    end.
Proof.
  unfold triggerManualSync, sync_row. unfold_m. simpl.
  by destruct (for_of_push _ _ _ _) as [[results|e] st1].
Qed.

(** C2, as the code has it.  With the entity id omitted, the enabled
    entities are run one after the other in the order of the entity store,
    each from the database the one before left.  While the runs return
    normally the loop goes on, and when all did the call returns their
    number.  The first run that raises ends the call: the error is written to
    the console and rethrown to the caller, no number is returned, and the
    entities after it are not attempted.  Below, [pre] are the entities whose
    runs return normally, [w1] is the database they leave, and [rest] are the
    remaining entities, the first of which raises [e] from [w1]. *)
Theorem triggerManualSync_all_until_failure syncType pre rest e w1 st :
  filter (λ c, ch_sync_enabled c = true) (channel (world st)) = pre ++ rest →
  runs_through syncService syncType pre (world st) = Some w1 →
  (∀ b, head rest = Some b →
        fst (service_run syncService syncType b w1) = Throw e) →
  let r := triggerManualSync syncService syncType None st in
  fst r = match rest with
          | [] => Normal (SyncedAll (length pre))
          | _ :: _ => Throw e
          end
  ∧ calls (snd r) = calls st ++ (service_call syncType <$> (pre ++ take 1 rest))
  ∧ world (snd r) = match rest with
                    | [] => w1
                    | b :: _ => snd (service_run syncService syncType b w1)
                    end
  ∧ console (snd r)
    = console st
      ++ [ConsoleLog ("Triggering manual " +:+ syncType
                      +:+ " sync for all enabled channels...")]
      ++ (syncing_line <$> (pre ++ take 1 rest))
      ++ match rest with
         | [] => []
         | _ :: _ => [ConsoleError "Manual sync failed:" (Some e)]
         end.
Proof.
  intros Hrows Hrun Hfail. simpl. rewrite triggerManualSync_all_eq. simpl.
  rewrite Hrows.
  match goal with
  | |- context [for_of_push _ _ [] ?st0] =>
      destruct (for_of_push_through syncType pre rest [] w1 st0 Hrun)
        as (acc' & st' & -> & Hlen & Hcalls & Hcons & Hw)
  end.
  simpl in Hcalls, Hcons. destruct rest as [|b post].
  - simpl. rewrite !app_nil_r. unfold ret. simpl.
    rewrite Hlen, Hcalls, Hcons, Hw. simpl. by rewrite <- app_assoc.
  - specialize (Hfail b eq_refl). rewrite <- Hw in Hfail.
    assert (for_of_push (b :: post) (sync_row syncService syncType) acc' st'
            = (Throw e,
               set_world (Some (service_call syncType b))
                 (snd (service_run syncService syncType b (world st')))
                 (add_console (syncing_line b) st')))
      as ->.
    { simpl. unfold mbind, M_bind, bind. by rewrite sync_row_eq, Hfail. }
    simpl. split; [done|]. split; [|split].
    + rewrite Hcalls, fmap_app. simpl. by rewrite <- app_assoc.
    + by rewrite Hw.
    + rewrite Hcons, fmap_app. simpl. by rewrite <- !app_assoc.
Qed.

Lemma triggerManualSync_not_found syncType channelId st :
  channelId ≠ "" →
  lookup_channel channelId (world st) = None →
  let r := triggerManualSync syncService syncType (Some channelId) st in
  fst r = Throw (MkError ("Channel " +:+ channelId +:+ " not found"))
  ∧ world (snd r) = world st
  ∧ calls (snd r) = calls st.
Proof.
  intros Hne%String.eqb_neq Hl%lookup_channel_None. simpl.
  unfold triggerManualSync, truthy. rewrite Hne. unfold_m. simpl.
  by rewrite Hl.
Qed.

Lemma triggerManualSync_found syncType channelId ch st :
  channelId ≠ "" →
  lookup_channel channelId (world st) = Some ch →
  let r := triggerManualSync syncService syncType (Some channelId) st in
  calls (snd r) = calls st ++ [service_call syncType ch]
  ∧ world (snd r) = snd (service_run syncService syncType ch (world st))
  ∧ fst r = match fst (service_run syncService syncType ch (world st)) with
            | Normal v => Normal (Synced v)
            | Throw e => Throw e
            end.
Proof.
  intros Hne%String.eqb_neq [rest Hl]%lookup_channel_Some. simpl.
  unfold triggerManualSync, truthy, service_run, service_call,
    call_fullSync, call_incrementalSync.
  rewrite Hne. unfold_m. simpl. rewrite Hl. simpl.
  destruct (String.eqb syncType "full"); simpl;
    by match goal with |- context [?f syncService ?a ?b ?w] =>
         destruct (f syncService a b w) as [[v|e] w']
       end.
Qed.

(** C7. For an entity id that is given (not empty): when no row of
    [channel] has that id, the call throws a not-found error, makes no call
    to the sync service and leaves the database, hence [sync_log], as it
    was; when a row has it, the sync service is run for that row whatever its
    enabled flag, and the call resolves with the value of the run or throws
    its error. *)
Theorem triggerManualSync_one syncType channelId st :
  channelId ≠ "" →
  let r := triggerManualSync syncService syncType (Some channelId) st in
  (lookup_channel channelId (world st) = None →
     fst r = Throw (MkError ("Channel " +:+ channelId +:+ " not found"))
     ∧ sync_log (world (snd r)) = sync_log (world st)
     ∧ world (snd r) = world st
     ∧ calls (snd r) = calls st)
  ∧ (∀ ch, lookup_channel channelId (world st) = Some ch →
       calls (snd r) = calls st ++ [service_call syncType ch]
       ∧ world (snd r) = snd (service_run syncService syncType ch (world st))
       ∧ fst r = match fst (service_run syncService syncType ch (world st)) with
                 | Normal v => Normal (Synced v)
                 | Throw e => Throw e
                 end).
Proof.
  intros Hne. simpl. split.
  - intros Hl.
    destruct (triggerManualSync_not_found syncType channelId st Hne Hl)
      as (Hr & Hw & Hc).
    by rewrite Hr, Hw, Hc.
  - intros ch Hl. by apply triggerManualSync_found.
Qed.

(** *** PUT /api/channels/:id *)

Lemma put_channel_apiKey id key st :
  lookup_channel id (world st) ≠ None →
  put_channel cron_validate id
    {| syncEnabled := None; syncSchedule := None; apiKey := Some key |} st
  = (Normal (json (BodyMessage "Channel updated successfully")),
     set_world None
       (set_channel
          (fmap (λ c, if bool_decide (ch_id c = id)
                      then apply_put {| syncEnabled := None; syncSchedule := None;
                                        apiKey := Some key |} c
                      else c))
          (world st))
       st).
Proof.
  intros Hl. unfold put_channel. unfold_m. simpl.
  unfold lookup_channel in Hl.
  destruct (filter _ _) as [|c rest]; [done|]. simpl.
  by rewrite andb_false_r.
Qed.

Lemma lookup_channel_put id body w ch :
  lookup_channel id w = Some ch →
  lookup_channel id
    (set_channel
       (fmap (λ c, if bool_decide (ch_id c = id) then apply_put body c else c)) w)
  = Some (apply_put body ch).
Proof.
  unfold lookup_channel. simpl.
  induction (channel w) as [|c l IH]; [done|].
  rewrite filter_cons. rewrite fmap_cons, filter_cons.
  destruct (decide (ch_id c = id)) as [Heq|Hne].
  - rewrite bool_decide_eq_true_2 by done. simpl.
    rewrite decide_True by done. simpl. by intros [= ->].
  - rewrite bool_decide_eq_false_2 by done.
    rewrite decide_False by done. apply IH.
Qed.

(** C10. A trigger registered for a channel holds the key read at
    registration.  A later update request that carries only [apiKey] stores
    the new key in [channel] and leaves the map, node-cron's tasks and the
    trace of node-cron calls as they were: the trigger is not registered
    again, and its next firing still passes the key read at registration to
    the sync service. *)
Theorem put_apiKey_keeps_registered_key id ch key st :
  lookup_channel id (world st) = Some ch →
  ch_sync_enabled ch = true →
  cron_validate (or_default (ch_sync_schedule ch) "0 2 * * *") = None →
  let st1 := snd (registerChannel cron_validate id st) in
  let h := length (tasks st) in
  let body := {| syncEnabled := None; syncSchedule := None; apiKey := Some key |} in
  let r := put_channel cron_validate id body st1 in
  let st2 := snd r in
  jobs st1 !! id = Some h
  ∧ fst r = Normal (json (BodyMessage "Channel updated successfully"))
  ∧ (∃ ch', lookup_channel id (world st2) = Some ch' ∧ ch_api_key ch' = key)
  ∧ jobs st2 = jobs st1 ∧ tasks st2 = tasks st1 ∧ cron_trace st2 = cron_trace st1
  ∧ calls (snd (fire syncService h st2)) = calls st2 ++ [CallIncremental id (ch_api_key ch)].
Proof.
  intros Hl He Hv. simpl.
  rewrite (registerChannel_enabled _ ch) by done. simpl.
  destruct (jobs_registered id ch st) as [Hj Ht].
  assert (lookup_channel id (world (registered id ch st)) = Some ch) as Hl'.
  { unfold registered. simpl. by rewrite stop_existing_world. }
  rewrite put_channel_apiKey by (by rewrite Hl').
  simpl. split; [done|]. split; [done|]. split.
  { eexists. split; [by apply lookup_channel_put|done]. }
  split; [done|]. split; [done|]. split; [done|].
  by rewrite (fire_calls _ (trigger_of id ch)).
Qed.

(** *** GET /api/sync/progress *)

#[local] Instance started_after_total : Total started_after.
Proof. intros a b. unfold started_after. lia. Qed.

#[local] Instance started_after_trans : Transitive started_after.
Proof. intros a b c. unfold started_after. lia. Qed.

(** C9, as the code has it.  [GET /api/sync/progress] reads no parameter of
    the request and changes nothing.  It answers [running: false] when no
    record is in state [running]; otherwise it answers with one record only,
    a running one that no other running record was started after, whatever
    its entity. *)
Theorem get_progress_latest_only st :
  let r := get_progress st in
  snd r = st
  ∧ ((fst r = Normal (json (BodyProgress false None))
      ∧ ∀ x, x ∈ sync_log (world st) → log_status x ≠ "running")
     ∨ ∃ row,
         fst r = Normal (json (BodyProgress true (Some row)))
         ∧ row ∈ sync_log (world st)
         ∧ log_status row = "running"
         ∧ ∀ x, x ∈ sync_log (world st) → log_status x = "running" →
                (log_started_at x ≤ log_started_at row)%nat).
Proof.
  simpl. unfold get_progress, select_running_latest. unfold_m. simpl.
  set (l := filter (λ r, log_status r = "running") (sync_log (world st))).
  pose proof (merge_sort_Permutation started_after l) as Hp.
  pose proof (StronglySorted_merge_sort started_after l) as Hs.
  destruct (merge_sort started_after l) as [|row s'] eqn:Hm.
  - simpl. split; [done|]. left. split; [done|].
    intros x Hx Hr. apply Permutation_nil_l in Hp.
    assert (x ∈ l) as Hin by (by apply list_elem_of_filter).
    rewrite <- Hp in Hin. by apply elem_of_nil in Hin.
  - simpl. split; [done|]. right. exists row.
    assert (row ∈ l) as [Hr Hin]%list_elem_of_filter.
    { rewrite <- Hp. left. }
    split; [done|]. split; [done|]. split; [done|].
    intros x Hx Hxr.
    assert (x ∈ row :: s') as Hxs.
    { rewrite Hp. by apply list_elem_of_filter. }
    apply StronglySorted_inv in Hs as [_ Hall].
    apply elem_of_cons in Hxs as [->|Hxs]; [done|].
    rewrite Forall_forall in Hall. by apply Hall.
Qed.

(** *** POST /api/sync/cancel *)

Lemma post_cancel_eq channelId st :
  app_syncService st = true →
  post_cancel syncService channelId st
  = (Normal (json (BodyMessage "Sync cancellation requested")),
     let w1 := set_service (cancelSync syncService channelId) (world st) in
     let hit (r : SyncLog) :=
       if truthy channelId
       then bool_decide (log_channel_id r = default "" channelId
                         ∧ log_status r = "running")
       else bool_decide (log_status r = "running") in
     set_world None
       (set_sync_log
          (fmap (λ r, if hit r then set_cancelled (current_timestamp (world st)) r else r))
          w1)
       (set_world None w1 st)).
Proof.
  intros Ha. unfold post_cancel, update_cancel_channel, update_cancel_running.
  unfold_m. simpl. rewrite Ha. simpl.
  by destruct (truthy channelId).
Qed.

Lemma post_cancel_sync_log channelId st :
  app_syncService st = true →
  let r := post_cancel syncService channelId st in
  let now := current_timestamp (world st) in
  service (world (snd r)) = cancelSync syncService channelId (service (world st))
  ∧ length (sync_log (world (snd r))) = length (sync_log (world st))
  ∧ (∀ i row,
       sync_log (world st) !! i = Some row →
       log_status row = "running" →
       (∀ c, channelId = Some c → log_channel_id row = c) →
       sync_log (world (snd r)) !! i = Some (set_cancelled now row))
  ∧ (∀ i row',
       sync_log (world (snd r)) !! i = Some row' →
       log_status row' = "completed" ∨ log_status row' = "failed" →
       sync_log (world st) !! i = Some row').
Proof.
  intros Ha. simpl. rewrite post_cancel_eq by done. simpl.
  split; [done|]. split; [by rewrite length_fmap|]. split.
  - intros i row Hi Hr Hc. rewrite list_lookup_fmap, Hi. simpl. f_equal.
    destruct (truthy channelId) eqn:Ht.
    + destruct channelId as [c|]; [|done]. simpl.
      by rewrite bool_decide_eq_true_2 by (split; [by apply Hc|done]).
    + by rewrite bool_decide_eq_true_2.
  - intros i row' Hi Hs. rewrite list_lookup_fmap in Hi.
    destruct (sync_log (world st) !! i) as [row|]; [|done].
    simpl in Hi. injection Hi as <-.
    destruct (if truthy channelId then _ else _); [|done].
    simpl in Hs. by destruct Hs.
Qed.

End SchedulerFacts.

(** ** With the sync service of the specification *)

Section OrchestratorFacts.

Variable pipeline : string → string → string → option JsError.

#[local] Abbreviation svc := (Orchestrator.syncService pipeline).

Implicit Types (st : @State Orchestrator.Registry).

Lemma is_flagged_cancelSync channelId i reg :
  channelId = None ∨ channelId = Some i →
  Orchestrator.is_flagged i (Orchestrator.cancelSync channelId reg) = true.
Proof.
  unfold Orchestrator.is_flagged. intros [->| ->]; simpl.
  - apply orb_true_iff. right. apply bool_decide_eq_true_2. set_solver.
  - apply orb_true_iff. left. apply bool_decide_eq_true_2. set_solver.
Qed.

(** C3. A cancel request served by an application that holds a sync
    service sets the cancellation flag, of the entity given or of all when
    none is given, and every record of [sync_log] in state [running], of that
    entity or of all, becomes [cancelled] with completed_at set and error
    "Cancelled by user".  No other record changes: whatever is [completed] or
    [failed] afterwards was so before. *)
Theorem post_cancel_cancels_running channelId st :
  app_syncService st = true →
  let r := post_cancel svc channelId st in
  let now := current_timestamp (world st) in
  fst r = Normal (json (BodyMessage "Sync cancellation requested"))
  ∧ (∀ i, channelId = None ∨ channelId = Some i →
          Orchestrator.is_flagged i (service (world (snd r))) = true)
  ∧ length (sync_log (world (snd r))) = length (sync_log (world st))
  ∧ (∀ i row,
       sync_log (world st) !! i = Some row →
       log_status row = "running" →
       (∀ c, channelId = Some c → log_channel_id row = c) →
       ∃ row',
         sync_log (world (snd r)) !! i = Some row'
         ∧ log_id row' = log_id row
         ∧ log_channel_id row' = log_channel_id row
         ∧ log_status row' = "cancelled"
         ∧ log_errors row' = Some "Cancelled by user"
         ∧ log_completed_at row' = Some now)
  ∧ (∀ i row',
       sync_log (world (snd r)) !! i = Some row' →
       log_status row' = "completed" ∨ log_status row' = "failed" →
       sync_log (world st) !! i = Some row').
Proof.
  intros Ha.
  destruct (post_cancel_sync_log svc channelId st Ha) as (Hs & Hlen & Hrun & Hkeep).
  simpl in *. split; [by rewrite post_cancel_eq|]. split.
  { intros i Hi. rewrite Hs. by apply is_flagged_cancelSync. }
  split; [done|]. split; [|done].
  intros i row Hi Hr Hc. eexists. split; [by apply Hrun|done].
Qed.

(** A flag that was consumed is cleared: a second [consume] of the entity
    returns false. *)
Lemma consume_clears i reg :
  Orchestrator.is_flagged i (snd (Orchestrator.consume i reg)) = false.
Proof.
  unfold Orchestrator.is_flagged, Orchestrator.consume. simpl.
  apply orb_false_iff. split.
  - apply bool_decide_eq_false_2. set_solver.
  - apply andb_false_iff. right. apply bool_decide_eq_false_2. set_solver.
Qed.

(** The identifier of a record just opened is that of no record of the
    log. *)
Lemma open_fresh_id entityId mode (w : Orchestrator.World) x :
  x ∈ sync_log w → log_id x ≠ fst (Orchestrator.open entityId mode w).
Proof.
  intros Hx. simpl.
  assert (log_id x ∈ log_id <$> sync_log w) as Hin
    by (by apply list_elem_of_fmap_2).
  apply max_list_elem_of_le in Hin. lia.
Qed.

Lemma count_running_open entityId mode (w : Orchestrator.World) :
  count_running entityId (snd (Orchestrator.open entityId mode w))
  = S (count_running entityId w).
Proof.
  unfold count_running, Orchestrator.open. simpl.
  rewrite filter_app, length_app.
  rewrite filter_cons_True by done. simpl. lia.
Qed.

Lemma lookup_channel_id {ServiceState} channelId (w : @World ServiceState) ch :
  lookup_channel channelId w = Some ch → ch_id ch = channelId.
Proof.
  intros [rest Hl]%lookup_channel_Some.
  assert (ch ∈ filter (λ c, ch_id c = channelId) (channel w)) as Hin.
  { rewrite Hl. left. }
  by apply list_elem_of_filter in Hin as [? _].
Qed.

(** C1, as the code has it, with the sync service of the specification.
    Nothing keeps a second run of an entity from starting.  For an existing
    entity the scheduler hands every manual invocation to the sync service
    without looking at [sync_log], and so does every firing of an armed
    trigger; the run then opens one more record in state [running], however
    many the entity has already. *)
Theorem triggerManualSync_not_exclusive syncType channelId ch st :
  channelId ≠ "" →
  lookup_channel channelId (world st) = Some ch →
  let mode := if String.eqb syncType "full" then "full" else "incremental" in
  (* a manual invocation *)
  (let r := triggerManualSync svc syncType (Some channelId) st in
   let opened := Orchestrator.open channelId mode (world st) in
   calls (snd r) = calls st ++ [service_call syncType ch]
   ∧ count_running channelId (snd opened) = S (count_running channelId (world st))
   ∧ world (snd r)
     = snd (Orchestrator.finish pipeline mode channelId (ch_api_key ch) opened))
  (* a scheduled one *)
  ∧ (∀ h t, tasks st !! h = Some t → task_running t = true →
       let r := fire svc h st in
       let opened := Orchestrator.open (task_channel t) "incremental" (world st) in
       calls (snd r) = calls st ++ [CallIncremental (task_channel t) (task_api_key t)]
       ∧ count_running (task_channel t) (snd opened)
         = S (count_running (task_channel t) (world st))
       ∧ world (snd r)
         = snd (Orchestrator.finish pipeline "incremental" (task_channel t)
                  (task_api_key t) opened)).
Proof.
  intros Hne Hl. simpl. split.
  - destruct (triggerManualSync_found svc syncType channelId ch st Hne Hl)
      as (Hc & Hw & _).
    simpl in *. split; [done|]. split; [apply count_running_open|].
    rewrite Hw. unfold service_run. rewrite (lookup_channel_id _ _ _ Hl).
    by destruct (String.eqb syncType "full").
  - intros h t Ht Hr. split; [by apply fire_calls|].
    split; [apply count_running_open|]. by rewrite (fire_world _ h t).
Qed.

End OrchestratorFacts.

(** ** The scheduler beyond register and update *)

Section LifecycleFacts.

Context {ServiceState SyncResult : Type}.
Variable syncService : @SyncService ServiceState SyncResult.
Variable cron_validate : string → option JsError.

Implicit Types (st : @State ServiceState) (w : @World ServiceState).

Ltac unfold_ops :=
  unfold mbind, M_bind, mret, M_ret, bind, ret, throw, try_catch, get, modify,
    modify_world, console_log, console_error, select_channel, select_enabled,
    cron_stop in *.

(** *** The map points to tasks of the right channel *)

Lemma jobs_valid_constructor w : jobs_valid (constructor w).
Proof. intros k h Hk. done. Qed.

Lemma stop_existing_task channelId st h t :
  tasks st !! h = Some t →
  ∃ t', tasks (stop_existing channelId st) !! h = Some t'
        ∧ task_channel t' = task_channel t
        ∧ (task_running t' = true → t' = t).
Proof.
  intros Ht. unfold stop_existing.
  destruct (jobs st !! channelId) as [h0|]; simpl; [|by exists t].
  destruct (decide (h0 = h)) as [->|Hne].
  - exists (stop_task t). rewrite list_lookup_alter_eq, Ht. done.
  - exists t. by rewrite list_lookup_alter_ne.
Qed.

Lemma jobs_valid_stop_existing channelId st :
  jobs_valid st → jobs_valid (stop_existing channelId st).
Proof.
  intros Hv k h Hk. rewrite stop_existing_jobs in Hk.
  destruct (Hv k h Hk) as (t & Ht & Hc).
  destruct (stop_existing_task channelId st h t Ht) as (t' & Ht' & Hc' & _).
  exists t'. split; [done|congruence].
Qed.

Lemma jobs_valid_registered channelId ch st :
  jobs_valid st → jobs_valid (registered channelId ch st).
Proof.
  intros Hv k h. unfold registered. simpl. rewrite stop_existing_jobs.
  destruct (decide (channelId = k)) as [->|Hne].
  - rewrite lookup_insert_eq. intros [= <-].
    exists (trigger_of k ch). split; [|done].
    rewrite lookup_app_r by done. by rewrite Nat.sub_diag.
  - rewrite lookup_insert_ne by done. intros Hk.
    destruct (Hv k h Hk) as (t & Ht & Hc).
    destruct (stop_existing_task channelId st h t Ht) as (t' & Ht' & Hc' & _).
    exists t'. split; [|congruence].
    rewrite lookup_app_l; [done|]. by eapply lookup_lt_Some.
Qed.

Lemma jobs_valid_registerChannel channelId st :
  jobs_valid st → jobs_valid (snd (registerChannel cron_validate channelId st)).
Proof.
  intros Hv.
  destruct (lookup_channel channelId (world st)) as [ch|] eqn:Hl.
  - destruct (ch_sync_enabled ch) eqn:He.
    + destruct (cron_validate (or_default (ch_sync_schedule ch) "0 2 * * *")) as [e|] eqn:Hc.
      * erewrite registerChannel_refused by done. simpl.
        by apply jobs_valid_stop_existing.
      * erewrite registerChannel_enabled by done.
        by apply jobs_valid_registered.
    + by erewrite registerChannel_disabled.
  - by rewrite registerChannel_missing.
Qed.

Lemma jobs_valid_unregisterChannel channelId st :
  jobs_valid st → jobs_valid (snd (unregisterChannel channelId st)).
Proof.
  intros Hv. rewrite unregisterChannel_eq. simpl.
  destruct (jobs st !! channelId) as [h0|] eqn:Hj; [|done].
  intros k h. simpl. rewrite stop_existing_jobs. intros Hk.
  apply lookup_delete_Some in Hk as [Hne Hk].
  destruct (Hv k h Hk) as (t & Ht & Hc).
  destruct (stop_existing_task channelId st h t Ht) as (t' & Ht' & Hc' & _).
  exists t'. split; [done|congruence].
Qed.

(** *** Other channels *)

Lemma filter_alter_outside {A} (P : A → Prop) `{!∀ x, Decision (P x)}
    (f : A → A) (l : list A) (i : nat) (x : A) :
  l !! i = Some x → ¬ P x → ¬ P (f x) → filter P (alter f i l) = filter P l.
Proof.
  revert i. induction l as [|a l IH]; intros i Hi Hx Hfx; [done|].
  destruct i as [|i].
  - injection Hi as ->.
    change (alter f 0 (x :: l)) with (f x :: l).
    by rewrite !filter_cons_False.
  - change (alter f (S i) (a :: l)) with (a :: alter f i l).
    rewrite !filter_cons. by rewrite (IH i).
Qed.

Lemma armed_stop_existing_other channelId c st :
  jobs_valid st → c ≠ channelId →
  armed c (stop_existing channelId st) = armed c st.
Proof.
  intros Hv Hne. unfold stop_existing.
  destruct (jobs st !! channelId) as [h|] eqn:Hj; [|done].
  destruct (Hv _ _ Hj) as (t & Ht & Hc).
  unfold armed. simpl. apply (filter_alter_outside _ _ _ _ t); [done|..].
  - intros [? _]. congruence.
  - simpl. intros [? _]. congruence.
Qed.

Lemma armed_registered_other channelId c ch st :
  jobs_valid st → c ≠ channelId →
  armed c (registered channelId ch st) = armed c st.
Proof.
  intros Hv Hne. unfold armed, registered. simpl.
  rewrite filter_app. fold (armed c (stop_existing channelId st)).
  rewrite armed_stop_existing_other by done.
  rewrite filter_cons_False; [by rewrite app_nil_r|].
  simpl. intros [? _]. congruence.
Qed.

(** Registering one channel leaves what is armed for another, and the
    other's entry of the map. *)
Lemma registerChannel_keeps_other channelId c st :
  jobs_valid st → c ≠ channelId →
  let st' := snd (registerChannel cron_validate channelId st) in
  armed c st' = armed c st ∧ jobs st' !! c = jobs st !! c.
Proof.
  intros Hv Hne. simpl.
  destruct (lookup_channel channelId (world st)) as [ch|] eqn:Hl.
  - destruct (ch_sync_enabled ch) eqn:He.
    + destruct (cron_validate (or_default (ch_sync_schedule ch) "0 2 * * *")) as [e|] eqn:Hc.
      * erewrite registerChannel_refused by done. simpl.
        rewrite stop_existing_jobs. split; [|done].
        by apply armed_stop_existing_other.
      * erewrite registerChannel_enabled by done.
        split; [by apply armed_registered_other|].
        unfold registered. simpl.
        by rewrite stop_existing_jobs, lookup_insert_ne.
    + by erewrite registerChannel_disabled.
  - by rewrite registerChannel_missing.
Qed.

(** *** unregisterChannel *)

(** X1. [unregisterChannel] leaves the channel without a trigger: its entry
    is gone from the map and none of its tasks is armed.  When the map held
    no entry for it, nothing at all changes, the console included. *)
Theorem unregisterChannel_removes channelId st :
  jobs_consistent st →
  let r := unregisterChannel channelId st in
  fst r = Normal tt
  ∧ jobs (snd r) !! channelId = None
  ∧ armed channelId (snd r) = []
  ∧ world (snd r) = world st
  ∧ (jobs st !! channelId = None → snd r = st).
Proof.
  intros Hc. simpl. rewrite unregisterChannel_eq. simpl.
  pose proof (armed_stop_existing channelId st Hc) as Ha.
  unfold stop_existing in *.
  destruct (jobs st !! channelId) as [h|] eqn:Hj; simpl.
  - rewrite lookup_delete_eq. done.
  - done.
Qed.

(** X2. [unregisterChannel] touches one channel only: for every other
    channel the entry of the map and the armed tasks are as before. *)
Theorem unregisterChannel_keeps_others channelId c st :
  jobs_valid st →
  c ≠ channelId →
  let st' := snd (unregisterChannel channelId st) in
  jobs st' !! c = jobs st !! c ∧ armed c st' = armed c st.
Proof.
  intros Hv Hne. simpl. rewrite unregisterChannel_eq. simpl.
  pose proof (armed_stop_existing_other channelId c st Hv Hne) as Ha.
  pose proof (stop_existing_jobs channelId st) as Hj'.
  destruct (jobs st !! channelId) as [h|] eqn:Hj; [|done].
  simpl. rewrite Hj', lookup_delete_ne by done. done.
Qed.

(** X3. An expression that node-cron refuses costs the channel its
    schedule.  [registerChannel] returns normally with the error on the
    console, the trigger the channel had is stopped, and its stale entry
    stays in the map; after [updateChannel] the channel has neither entry nor
    armed task. *)
Theorem refused_expression_disarms channelId ch e st :
  jobs_consistent st →
  lookup_channel channelId (world st) = Some ch →
  ch_sync_enabled ch = true →
  cron_validate (or_default (ch_sync_schedule ch) "0 2 * * *") = Some e →
  (let r := registerChannel cron_validate channelId st in
   fst r = Normal tt
   ∧ armed channelId (snd r) = []
   ∧ jobs (snd r) = jobs st
   ∧ last (console (snd r))
     = Some (ConsoleError ("Error registering channel " +:+ channelId +:+ ":") (Some e)))
  ∧ (let r := updateChannel cron_validate channelId st in
     fst r = Normal tt
     ∧ armed channelId (snd r) = []
     ∧ jobs (snd r) !! channelId = None).
Proof.
  intros Hc Hl He Hr. simpl. split.
  - rewrite (registerChannel_refused _ _ ch e) by done. simpl.
    rewrite stop_existing_jobs, last_snoc.
    split; [done|]. split; [|done].
    by apply armed_stop_existing.
  - rewrite updateChannel_eq.
    pose proof (jobs_consistent_unregisterChannel channelId st Hc) as Hc'.
    rewrite (registerChannel_refused _ _ ch e);
      [|by rewrite unregisterChannel_world|done|done].
    simpl. rewrite stop_existing_jobs. split; [done|].
    split; [by apply armed_stop_existing|].
    apply unregisterChannel_jobs.
Qed.

(** *** initialize and startDailySync *)

Lemma for_of_registerChannel_cons (rows : list Channel) (r : Channel) st :
  snd (for_of (r :: rows) (λ channel, registerChannel cron_validate (ch_id channel)) st)
  = snd (for_of rows (λ channel, registerChannel cron_validate (ch_id channel))
           (snd (registerChannel cron_validate (ch_id r) st))).
Proof.
  simpl. unfold mbind, M_bind, bind.
  pose proof (registerChannel_normal cron_validate (ch_id r) st) as Hn.
  by destruct (registerChannel cron_validate (ch_id r) st) as [[[]|e] st1].
Qed.

Lemma for_of_registerChannel_arms c ch (rows : list Channel) st :
  lookup_channel c (world st) = Some ch →
  ch_sync_enabled ch = true →
  cron_validate (or_default (ch_sync_schedule ch) "0 2 * * *") = None →
  jobs_consistent st → jobs_valid st →
  (armed c st = [trigger_of c ch] ∨ ∃ r, r ∈ rows ∧ ch_id r = c) →
  let st' := snd (for_of rows (λ channel, registerChannel cron_validate (ch_id channel)) st) in
  jobs_consistent st' ∧ armed c st' = [trigger_of c ch].
Proof.
  intros Hl He Hv. revert st Hl.
  induction rows as [|r rows IH]; intros st Hl Hc Hjv Hor.
  - simpl. destruct Hor as [Ha|(r & Hin & _)]; [done|].
    by apply elem_of_nil in Hin.
  - cbv zeta. rewrite for_of_registerChannel_cons.
    apply IH.
    + by rewrite registerChannel_world.
    + by apply jobs_consistent_registerChannel.
    + by apply jobs_valid_registerChannel.
    + destruct (decide (ch_id r = c)) as [Heq|Hne].
      * left. rewrite Heq. rewrite (registerChannel_enabled _ _ ch) by done.
        by apply armed_registered.
      * destruct (registerChannel_keeps_other (ch_id r) c st Hjv) as [Ha _];
          [congruence|].
        rewrite Ha. destruct Hor as [?|(r' & Hin & Hr')]; [by left|].
        right. exists r'. split; [|done].
        apply elem_of_cons in Hin as [->|Hin]; [done|done].
Qed.

Lemma armed_in_map c t st :
  jobs_consistent st → armed c st = [t] →
  ∃ h, jobs st !! c = Some h ∧ tasks st !! h = Some t.
Proof.
  intros Hc Ha.
  assert (t ∈ armed c st) as [[Hch Hr] Hin]%list_elem_of_filter.
  { rewrite Ha. left. }
  apply list_elem_of_lookup_1 in Hin as [h Hh].
  exists h. split; [|done]. rewrite <- Hch. by apply Hc.
Qed.

Lemma lookup_channel_enabled_row c ch w :
  lookup_channel c w = Some ch → ch_sync_enabled ch = true →
  ch ∈ filter (λ r, ch_sync_enabled r = true) (channel w).
Proof.
  intros [rest Hl]%lookup_channel_Some He.
  assert (ch ∈ filter (λ r, ch_id r = c) (channel w)) as [_ Hin]%list_elem_of_filter.
  { rewrite Hl. left. }
  by apply list_elem_of_filter.
Qed.

Lemma initialize_arms c ch st :
  jobs_consistent st → jobs_valid st →
  lookup_channel c (world st) = Some ch →
  ch_sync_enabled ch = true →
  cron_validate (or_default (ch_sync_schedule ch) "0 2 * * *") = None →
  let st' := snd (initialize cron_validate st) in
  jobs_consistent st' ∧ armed c st' = [trigger_of c ch].
Proof.
  intros Hc Hjv Hl He Hv. simpl. rewrite initialize_eq. simpl.
  match goal with
  | |- context [for_of ?rows ?body ?st0] =>
      destruct (for_of_registerChannel_arms c ch rows st0) as [Hc' Ha]
  end; try done.
  right. exists ch. split; [by apply (lookup_channel_enabled_row c)|].
  by eapply lookup_channel_id.
Qed.

(** X4. [startDailySync] arms every enabled entity: whatever cron time it
    is given, an enabled entity whose own expression node-cron accepts has
    exactly one armed trigger afterwards, built from the entity's row, and
    the map points to it. *)
Theorem startDailySync_arms_enabled cronTime c ch st :
  jobs_consistent st → jobs_valid st →
  lookup_channel c (world st) = Some ch →
  ch_sync_enabled ch = true →
  cron_validate (or_default (ch_sync_schedule ch) "0 2 * * *") = None →
  let r := startDailySync cron_validate cronTime st in
  fst r = Normal tt
  ∧ armed c (snd r) = [trigger_of c ch]
  ∧ ∃ h, jobs (snd r) !! c = Some h ∧ tasks (snd r) !! h = Some (trigger_of c ch).
Proof.
  intros Hc Hjv Hl He Hv. simpl.
  unfold startDailySync. unfold_ops. simpl.
  match goal with
  | |- context [initialize cron_validate ?st0] =>
      destruct (initialize_arms c ch st0) as [Hc' Ha]; try done;
      pose proof (initialize_eq cron_validate st0) as Heq; simpl in Heq;
      rewrite Heq in *
  end.
  simpl in *. split; [done|]. split; [done|]. by apply armed_in_map.
Qed.

(** *** stopAll *)

Lemma for_of_stop (l : list (string * nat)) st :
  let r := for_of l stop_entry st in
  fst r = Normal tt
  ∧ jobs (snd r) = jobs st ∧ world (snd r) = world st
  ∧ length (tasks (snd r)) = length (tasks st)
  ∧ ∀ h t', tasks (snd r) !! h = Some t' → task_running t' = true →
            tasks st !! h = Some t' ∧ h ∉ l.*2.
Proof.
  revert st. induction l as [|[k h0] l IH]; intros st.
  - simpl. repeat split; try done. by intros ?%elem_of_nil.
  - simpl. unfold stop_entry at 1 2 3 4 5. unfold_ops. simpl.
    match goal with
    | |- context [for_of l stop_entry ?st1] =>
        destruct (IH st1) as (Hn & Hj & Hw & Hlen & Hrun)
    end.
    simpl in *. split; [done|]. split; [done|]. split; [done|].
    split; [by rewrite Hlen, length_alter|].
    intros h t' Ht' Hr. destruct (Hrun h t' Ht' Hr) as [Ht Hnin].
    destruct (decide (h0 = h)) as [->|Hne].
    + rewrite list_lookup_alter_eq in Ht.
      destruct (tasks st !! h); simplify_eq/=.
    + rewrite list_lookup_alter_ne in Ht by done. split; [done|].
      intros [?|?]%elem_of_cons; [congruence|done].
Qed.

Lemma stopAll_eq st :
  stopAll st
  = (Normal tt,
     add_console (ConsoleLog "All scheduled jobs stopped")
       (set_jobs (λ _, ∅)
          (snd (for_of (map_to_list (jobs st)) stop_entry st)))).
Proof.
  destruct (for_of_stop (map_to_list (jobs st)) st) as (Hn & _).
  simpl in Hn. unfold stopAll.
  change (λ entry : string * nat,
            cron_stop entry.2
            ≫= λ _ : (), console_log ("Stopped scheduled job for channel " +:+ entry.1))
    with (@stop_entry ServiceState).
  unfold mbind, M_bind, bind, get, modify, console_log. simpl.
  by destruct (for_of _ _ st) as [[[]|e] st1].
Qed.

Lemma stopAll_running st h t' :
  jobs_consistent st →
  tasks (snd (stopAll st)) !! h = Some t' → task_running t' = false.
Proof.
  intros Hc Ht'. rewrite stopAll_eq in Ht'. simpl in Ht'.
  destruct (task_running t') eqn:Hr; [|done]. exfalso.
  destruct (for_of_stop (map_to_list (jobs st)) st) as (_ & _ & _ & _ & Hrun).
  destruct (Hrun h t' Ht' Hr) as [Ht Hnin].
  apply Hnin. pose proof (Hc h t' Ht Hr) as Hj.
  apply elem_of_map_to_list in Hj.
  by apply (list_elem_of_fmap_2 snd) in Hj.
Qed.

(** X5. After [stopAll] nothing is scheduled any more: the map is empty and
    no task of node-cron is armed, for any channel; no task is added or
    dropped and the database is not touched. *)
Theorem stopAll_disarms_all st :
  jobs_consistent st →
  let r := stopAll st in
  fst r = Normal tt
  ∧ jobs (snd r) = ∅
  ∧ (∀ c, armed c (snd r) = [])
  ∧ (∀ h t, tasks (snd r) !! h = Some t → task_running t = false)
  ∧ length (tasks (snd r)) = length (tasks st)
  ∧ world (snd r) = world st.
Proof.
  intros Hc. simpl.
  assert (∀ h t, tasks (snd (stopAll st)) !! h = Some t → task_running t = false)
    as Hoff by (intros h t; by apply stopAll_running).
  split; [by rewrite stopAll_eq|]. split; [by rewrite stopAll_eq|].
  split.
  { intros c. apply filter_nil_lookup. intros h t Ht [_ Hr].
    apply Hoff in Ht. congruence. }
  split; [done|].
  rewrite stopAll_eq. simpl.
  destruct (for_of_stop (map_to_list (jobs st)) st) as (_ & _ & Hw & Hlen & _).
  done.
Qed.

(** In whichever order [forEach] visits the entries of the map, insertion
    order included, [stopAll] leaves the same map and the same tasks. *)
Lemma stopAll_any_order (entries : list (string * nat)) st :
  jobs_consistent st →
  entries ≡ₚ map_to_list (jobs st) →
  let r := stopAll_in entries st in
  fst r = Normal tt
  ∧ jobs (snd r) = ∅
  ∧ (∀ c, armed c (snd r) = [])
  ∧ length (tasks (snd r)) = length (tasks st)
  ∧ world (snd r) = world st.
Proof.
  intros Hc Hp. simpl.
  destruct (for_of_stop entries st) as (Hn & _ & Hw & Hlen & Hrun).
  simpl in *. unfold stopAll_in, bind, modify, console_log.
  destruct (for_of entries stop_entry st) as [[[]|e] st1]; simplify_eq/=.
  split; [done|]. split; [done|]. split; [|done].
  intros c. apply filter_nil_lookup. intros h t Ht [_ Hr].
  destruct (Hrun h t Ht Hr) as [Ht0 Hnin]. apply Hnin.
  pose proof (Hc h t Ht0 Hr) as Hj. apply elem_of_map_to_list in Hj.
  rewrite <- Hp in Hj. by apply (list_elem_of_fmap_2 snd) in Hj.
Qed.

Lemma stopAll_stopAll_in st :
  stopAll st = stopAll_in (map_to_list (jobs st)) st.
Proof.
  rewrite stopAll_eq. unfold stopAll_in, bind, modify, console_log.
  destruct (for_of_stop (map_to_list (jobs st)) st) as (Hn & _).
  simpl in Hn.
  by destruct (for_of _ stop_entry st) as [[[]|e] st1].
Qed.

(** *** Syncs leave the schedule alone *)

Lemma same_schedule_refl st : same_schedule st st.
Proof. done. Qed.

Lemma same_schedule_trans st1 st2 st3 :
  same_schedule st1 st2 → same_schedule st2 st3 → same_schedule st1 st3.
Proof. intros (? & ? & ?) (? & ? & ?). repeat split; congruence. Qed.

Lemma for_of_push_schedule syncType (rows : list Channel) (acc : list SyncResult) st :
  same_schedule st (snd (for_of_push rows (sync_row syncService syncType) acc st)).
Proof.
  revert acc st. induction rows as [|ch rows IH]; intros acc st; [done|].
  simpl. unfold mbind, M_bind, bind. rewrite sync_row_eq.
  destruct (service_run syncService syncType ch (world st)) as [[v|e] w']; simpl.
  - eapply same_schedule_trans; [|apply IH]. done.
  - done.
Qed.

Lemma triggerManualSync_falsy syncType channelId st :
  truthy channelId = false →
  triggerManualSync syncService syncType channelId st
  = triggerManualSync syncService syncType None st.
Proof. intros Ht. unfold triggerManualSync. by rewrite Ht. Qed.

Lemma triggerManualSync_keeps_schedule_aux syncType channelId st :
  same_schedule st (snd (triggerManualSync syncService syncType channelId st)).
Proof.
  destruct (truthy channelId) eqn:Ht.
  - destruct channelId as [c|]; [|done].
    unfold triggerManualSync, call_fullSync, call_incrementalSync.
    rewrite Ht. unfold_ops. simpl.
    destruct (filter _ _) as [|ch rest]; [done|]. simpl.
    destruct (String.eqb syncType "full"); simpl;
      by match goal with |- context [?f syncService ?a ?b ?w] =>
           destruct (f syncService a b w) as [[v|e] w']
         end.
  - rewrite triggerManualSync_falsy by done.
    rewrite triggerManualSync_all_eq. simpl.
    match goal with
    | |- context [for_of_push ?rows _ [] ?st0] =>
        pose proof (for_of_push_schedule syncType rows [] st0) as Hs;
        destruct (for_of_push rows (sync_row syncService syncType) [] st0)
          as [[results|e] st1]
    end; done.
Qed.

(** X6. Running syncs never changes the schedule: after a manual sync, of
    one channel or of all, and after the firing of a task, the map, the
    tasks of node-cron and the calls made to node-cron are as before,
    whatever the sync service does and however the sync ends. *)
Theorem syncs_keep_schedule syncType channelId h st :
  same_schedule st (snd (triggerManualSync syncService syncType channelId st))
  ∧ same_schedule st (snd (fire syncService h st)).
Proof.
  split; [apply triggerManualSync_keeps_schedule_aux|].
  unfold fire. unfold_ops. simpl.
  destruct (tasks st !! h) as [t|]; [|done].
  destruct (task_running t); [|done].
  rewrite cron_callback_eq. simpl.
  by destruct (incrementalSync _ _ _ _) as [[v|e] w].
Qed.

Lemma fire_schedule h st : same_schedule st (snd (fire syncService h st)).
Proof.
  unfold fire. unfold_ops. simpl.
  destruct (tasks st !! h) as [t|]; [|done].
  destruct (task_running t); [|done].
  rewrite cron_callback_eq. simpl.
  by destruct (incrementalSync _ _ _ _) as [[v|e] w].
Qed.

(** *** At most one armed trigger per channel *)

Lemma filter_unique_index {A} (P : A → Prop) `{!∀ x, Decision (P x)} (l : list A) :
  (∀ i j x y, l !! i = Some x → l !! j = Some y → P x → P y → i = j) →
  (length (filter P l) ≤ 1)%nat.
Proof.
  induction l as [|a l IH]; intros Hu; [simpl; lia|].
  rewrite filter_cons. destruct (decide (P a)) as [Ha|Ha].
  - rewrite (filter_nil_lookup P l); [done|].
    intros i x Hi Hx. by specialize (Hu 0 (S i) a x eq_refl Hi Ha Hx).
  - apply IH. intros i j x y Hi Hj Hx Hy.
    by specialize (Hu (S i) (S j) x y Hi Hj Hx Hy) as [= ->].
Qed.

Lemma armed_at_most_one c st :
  jobs_consistent st → (length (armed c st) ≤ 1)%nat.
Proof.
  intros Hc. apply filter_unique_index.
  intros i j x y Hi Hj [Hx Hxr] [Hy Hyr].
  pose proof (Hc i x Hi Hxr) as H1. pose proof (Hc j y Hj Hyr) as H2.
  congruence.
Qed.

Lemma jobs_consistent_same st st' :
  same_schedule st st' → jobs_consistent st → jobs_consistent st'.
Proof. intros (Hj & Ht & _) Hc h t. rewrite Hj, Ht. apply Hc. Qed.

Lemma jobs_valid_same st st' :
  same_schedule st st' → jobs_valid st → jobs_valid st'.
Proof. intros (Hj & Ht & _) Hv k h. rewrite Hj, Ht. apply Hv. Qed.

Lemma jobs_valid_initialize st :
  jobs_valid st → jobs_valid (snd (initialize cron_validate st)).
Proof.
  intros Hv. rewrite initialize_eq. simpl.
  match goal with
  | |- context [for_of ?rows ?body ?st0] =>
      by destruct (for_of_registerChannel cron_validate jobs_valid rows st0
                     jobs_valid_registerChannel) as [_ ?]
  end.
Qed.

Lemma run_op_invariant st op :
  jobs_consistent st ∧ jobs_valid st →
  jobs_consistent (run_op syncService cron_validate st op)
  ∧ jobs_valid (run_op syncService cron_validate st op).
Proof.
  intros [Hc Hv]. destruct op as [c|c|c| | |h|syncType c|f]; simpl.
  - split; [by apply jobs_consistent_registerChannel|by apply jobs_valid_registerChannel].
  - split; [by apply jobs_consistent_unregisterChannel|by apply jobs_valid_unregisterChannel].
  - split; [by apply jobs_consistent_updateChannel|].
    rewrite updateChannel_eq.
    by apply jobs_valid_registerChannel, jobs_valid_unregisterChannel.
  - split; [by apply jobs_consistent_initialize|by apply jobs_valid_initialize].
  - split.
    + intros h t Ht Hr. apply stopAll_running in Ht; [congruence|done].
    + intros k h. rewrite stopAll_eq. simpl. by rewrite lookup_empty.
  - pose proof (fire_schedule h st) as Hs.
    split; [by eapply jobs_consistent_same|by eapply jobs_valid_same].
  - pose proof (triggerManualSync_keeps_schedule_aux syncType c st) as Hs.
    split; [by eapply jobs_consistent_same|by eapply jobs_valid_same].
  - done.
Qed.

(** X7. No channel ever has two armed triggers.  Start from a scheduler
    just constructed and apply any sequence of its methods (register,
    unregister, update, initialize, stopAll, manual syncs), firings of tasks
    and changes made to the database elsewhere: in the state reached, at most
    one task is armed for each channel, and it is the one the map holds. *)
Theorem at_most_one_trigger_ever w (ops : list SchedulerOp) c :
  let st := foldl (run_op syncService cron_validate) (constructor w) ops in
  (length (armed c st) ≤ 1)%nat
  ∧ ∀ h t, tasks st !! h = Some t → task_running t = true →
           jobs st !! task_channel t = Some h.
Proof.
  simpl.
  assert (jobs_consistent (foldl (run_op syncService cron_validate) (constructor w) ops)
          ∧ jobs_valid (foldl (run_op syncService cron_validate) (constructor w) ops))
    as [Hc _].
  { induction ops as [|op ops IH] using rev_ind.
    - split; [apply jobs_consistent_constructor|apply jobs_valid_constructor].
    - rewrite foldl_snoc. by apply run_op_invariant. }
  split; [by apply armed_at_most_one|done].
Qed.

End LifecycleFacts.

(** ** The other routes *)

Section RouteFacts.

Context {ServiceState SyncResult : Type}.
Variable syncService : @SyncService ServiceState SyncResult.
Variable cron_validate : string → option JsError.
Variable getChannelDetails : string → string → Completion ChannelDetails.

Implicit Types (st : @State ServiceState) (w : @World ServiceState).

Ltac unfold_route :=
  unfold mbind, M_bind, mret, M_ret, bind, ret, throw, try_catch, get, modify,
    modify_world, console_log, console_error, select_channel, select_enabled,
    cron_stop in *.

Lemma updateChannel_normal channelId st :
  fst (updateChannel cron_validate channelId st) = Normal tt.
Proof. rewrite updateChannel_eq. apply registerChannel_normal. Qed.

Lemma unregisterChannel_armed channelId st :
  jobs_consistent st → armed channelId (snd (unregisterChannel channelId st)) = [].
Proof.
  intros Hc. rewrite unregisterChannel_eq. simpl.
  pose proof (armed_stop_existing channelId st Hc) as Ha.
  unfold stop_existing in *. by destruct (jobs st !! channelId).
Qed.

(** *** PUT /api/channels/:id *)

Lemma put_channel_found id body ch st :
  lookup_channel id (world st) = Some ch →
  ¬ (syncEnabled body = None ∧ syncSchedule body = None ∧ apiKey body = None) →
  put_channel cron_validate id body st
  = (Normal (json (BodyMessage "Channel updated successfully")),
     let st1 := set_world None (put_rows id body (world st)) st in
     if app_scheduler st
        && (bool_decide (syncEnabled body ≠ None)
            || bool_decide (syncSchedule body ≠ None))
     then snd (updateChannel cron_validate id st1)
     else st1).
Proof.
  intros [rest Hl]%lookup_channel_Some Hb.
  unfold put_channel, put_rows. unfold_route. simpl. rewrite Hl.
  rewrite bool_decide_eq_false_2 by done. simpl.
  destruct (app_scheduler st && _); [|done].
  match goal with
  | |- context [updateChannel cron_validate id ?st1] =>
      pose proof (updateChannel_normal id st1) as Hn;
      destruct (updateChannel cron_validate id st1) as [[[]|e] st2]
  end; by simplify_eq/=.
Qed.

(** X8. After an update request that carries [syncEnabled] or
    [syncSchedule], the trigger of the channel agrees with the row just
    stored: when the row is enabled exactly one trigger is armed, built from
    the row's expression and key; when it is not, the channel has no armed
    trigger and no entry in the map. *)
Theorem put_channel_reconciles id body ch st :
  jobs_consistent st →
  app_scheduler st = true →
  lookup_channel id (world st) = Some ch →
  syncEnabled body ≠ None ∨ syncSchedule body ≠ None →
  (ch_sync_enabled (apply_put body ch) = true →
   cron_validate (or_default (ch_sync_schedule (apply_put body ch)) "0 2 * * *") = None) →
  let r := put_channel cron_validate id body st in
  fst r = Normal (json (BodyMessage "Channel updated successfully"))
  ∧ lookup_channel id (world (snd r)) = Some (apply_put body ch)
  ∧ armed id (snd r)
    = (if ch_sync_enabled (apply_put body ch)
       then [trigger_of id (apply_put body ch)] else [])
  ∧ (ch_sync_enabled (apply_put body ch) = false → jobs (snd r) !! id = None).
Proof.
  intros Hc Ha Hl Hb Hv.
  remember (apply_put body ch) as row eqn:Hrow. cbv zeta.
  rewrite (put_channel_found id body ch);
    [|done|intros (? & ? & _); by destruct Hb].
  rewrite Ha. cbn [andb fst snd].
  assert (bool_decide (syncEnabled body ≠ None)
          || bool_decide (syncSchedule body ≠ None) = true) as ->.
  { apply orb_true_iff.
    destruct Hb; [left|right]; by apply bool_decide_eq_true_2. }
  split; [done|].
  set (st1 := set_world None (put_rows id body (world st)) st).
  assert (lookup_channel id (world st1) = Some row) as Hl1.
  { rewrite Hrow. by apply lookup_channel_put. }
  assert (jobs_consistent st1) as Hc1 by done.
  rewrite updateChannel_eq.
  pose proof (jobs_consistent_unregisterChannel id st1 Hc1) as Hc2.
  pose proof (unregisterChannel_world id st1) as Hw2.
  destruct (ch_sync_enabled row) eqn:He.
  - rewrite (registerChannel_enabled _ _ row);
      [|by rewrite Hw2|done|by apply Hv].
    simpl. split.
    { unfold registered. simpl. by rewrite stop_existing_world, Hw2. }
    split; [by apply armed_registered|done].
  - rewrite (registerChannel_disabled _ _ row);
      [|by rewrite Hw2|done].
    simpl. split; [by rewrite Hw2|].
    split; [by apply unregisterChannel_armed|].
    intros _. apply unregisterChannel_jobs.
Qed.

(** *** DELETE /api/channels/:id *)

Lemma delete_channel_found id st :
  lookup_channel id (world st) ≠ None →
  delete_channel id st
  = (Normal (reply 200 (PayloadMessage "Channel deleted successfully")),
     let st1 := set_world None
                  (set_sync_log (filter (λ r, log_channel_id r ≠ id))
                     (set_channel (filter (λ c, ch_id c ≠ id)) (world st))) st in
     if app_scheduler st then snd (unregisterChannel id st1) else st1).
Proof.
  intros Hl. unfold delete_channel, delete_from_channel. unfold_route. simpl.
  unfold lookup_channel in Hl.
  destruct (filter _ _) as [|c rest]; [done|]. simpl.
  destruct (app_scheduler st); [|done].
  by rewrite unregisterChannel_eq.
Qed.

Lemma filter_id_removed (id c : string) (l : list Channel) :
  filter (λ r, ch_id r = c) (filter (λ r, ch_id r ≠ id) l)
  = if decide (c = id) then [] else filter (λ r, ch_id r = c) l.
Proof.
  induction l as [|a l IH]; [by destruct (decide _)|].
  rewrite (filter_cons (λ r, ch_id r ≠ id)), (filter_cons (λ r, ch_id r = c) a l).
  destruct (decide (ch_id a ≠ id)) as [Hne|Heq%dec_stable].
  - rewrite filter_cons, IH.
    destruct (decide (c = id)) as [->|?]; [by rewrite decide_False|done].
  - rewrite IH. destruct (decide (c = id)) as [->|?]; [done|].
    rewrite decide_False by congruence. done.
Qed.

(** X10. Deleting a channel removes everything the program holds about it:
    its row, its sync logs, its entry in the map and its armed trigger.  The
    rows of the other channels are as before. *)
Theorem delete_channel_removes id ch st :
  jobs_consistent st →
  app_scheduler st = true →
  lookup_channel id (world st) = Some ch →
  let r := delete_channel id st in
  fst r = Normal (reply 200 (PayloadMessage "Channel deleted successfully"))
  ∧ lookup_channel id (world (snd r)) = None
  ∧ (∀ x, x ∈ sync_log (world (snd r)) → log_channel_id x ≠ id)
  ∧ jobs (snd r) !! id = None
  ∧ armed id (snd r) = []
  ∧ (∀ c, c ≠ id → lookup_channel c (world (snd r)) = lookup_channel c (world st)).
Proof.
  intros Hc Ha Hl. simpl.
  rewrite delete_channel_found by (by rewrite Hl). rewrite Ha. simpl.
  split; [done|].
  rewrite unregisterChannel_world. simpl.
  split.
  { unfold lookup_channel. simpl. rewrite filter_id_removed.
    by rewrite decide_True. }
  split.
  { intros x Hx. by apply list_elem_of_filter in Hx as [? _]. }
  split; [apply unregisterChannel_jobs|].
  split; [by apply unregisterChannel_armed|].
  intros c Hne. unfold lookup_channel. simpl.
  rewrite filter_id_removed. by rewrite decide_False.
Qed.

(** *** Unknown channels *)

(** X9. The three handlers addressed at a channel answer 404 when no row
    has the id, and change nothing: no row is written, no trigger touched,
    no call made to the sync service, nothing logged. *)
Theorem unknown_channel_404 id body syncType st :
  lookup_channel id (world st) = None →
  put_channel cron_validate id body st
  = (Normal (status_json 404 (BodyError "Channel not found")), st)
  ∧ delete_channel id st
    = (Normal (reply 404 (PayloadError "Channel not found" None)), st)
  ∧ post_channel_sync syncService id syncType st
    = (Normal (reply 404 (PayloadError "Channel not found" None)), st).
Proof.
  intros Hl%lookup_channel_None.
  unfold put_channel, delete_channel, post_channel_sync. unfold_route. simpl.
  by rewrite Hl.
Qed.

(** *** Syncs started by a request *)

Lemma post_channel_sync_found id syncType ch st :
  app_scheduler st = true →
  lookup_channel id (world st) = Some ch →
  post_channel_sync syncService id syncType st
  = (Normal (reply 200
               (PayloadStarted
                  (default "incremental" syncType +:+ " sync started for channel " +:+ id)
                  (Some id) (default "incremental" syncType))),
     match triggerManualSync syncService (default "incremental" syncType) (Some id) st with
     | (Normal _, st1) =>
         add_console (ConsoleLog ("Manual sync completed for " +:+ id +:+ ":")) st1
     | (Throw e, st1) =>
         add_console (ConsoleError ("Manual sync error for " +:+ id +:+ ":") (Some e)) st1
     end).
Proof.
  intros Ha [rest Hl]%lookup_channel_Some.
  unfold post_channel_sync. unfold_route. simpl. rewrite Hl, Ha. simpl.
  by destruct (triggerManualSync _ _ _ st) as [[v|e] st1].
Qed.

(** X11. A sync requested for an existing channel is answered 200 at once,
    whatever becomes of the sync: its result or its error goes to the console
    only.  Exactly one call is made to the sync service, for that channel
    with its stored key, full only when the sync type is "full"; the schedule
    is not touched. *)
Theorem post_channel_sync_started id syncType ch st :
  id ≠ "" →
  app_scheduler st = true →
  lookup_channel id (world st) = Some ch →
  let r := post_channel_sync syncService id syncType st in
  let type := default "incremental" syncType in
  fst r = Normal (reply 200
                    (PayloadStarted (type +:+ " sync started for channel " +:+ id)
                       (Some id) type))
  ∧ calls (snd r) = calls st ++ [service_call type ch]
  ∧ world (snd r) = snd (service_run syncService type ch (world st))
  ∧ same_schedule st (snd r).
Proof.
  intros Hne Ha Hl. simpl. rewrite (post_channel_sync_found id syncType ch) by done.
  simpl. split; [done|].
  destruct (triggerManualSync_found syncService (default "incremental" syncType)
              id ch st Hne Hl) as (Hc & Hw & _).
  pose proof (triggerManualSync_keeps_schedule_aux syncService
                (default "incremental" syncType) (Some id) st) as Hs.
  simpl in *.
  by destruct (triggerManualSync _ _ _ st) as [[v|e] st1].
Qed.

Lemma post_trigger_eq syncType st :
  app_scheduler st = true →
  post_trigger syncService syncType st
  = (Normal (reply 200
               (PayloadStarted (default "incremental" syncType +:+ " sync started")
                  None (default "incremental" syncType))),
     match triggerManualSync syncService (default "incremental" syncType) None st with
     | (Normal _, st1) => add_console (ConsoleLog "Manual sync completed:") st1
     | (Throw e, st1) => add_console (ConsoleError "Manual sync error:" (Some e)) st1
     end).
Proof.
  intros Ha. unfold post_trigger. unfold_route. simpl. rewrite Ha. simpl.
  by destruct (triggerManualSync _ _ _ st) as [[v|e] st1].
Qed.

(** X12. [POST /api/sync/trigger] always starts a sync of all enabled
    channels and answers 200 at once, also when that sync fails: the calls
    made to the sync service and the database left behind are those of
    [triggerManualSync] without a channel id, the error, if any, is only
    logged, and the schedule is not touched. *)
Theorem post_trigger_started syncType st :
  app_scheduler st = true →
  let r := post_trigger syncService syncType st in
  let type := default "incremental" syncType in
  let sync := triggerManualSync syncService type None st in
  fst r = Normal (reply 200 (PayloadStarted (type +:+ " sync started") None type))
  ∧ calls (snd r) = calls (snd sync)
  ∧ world (snd r) = world (snd sync)
  ∧ (∀ e, fst sync = Throw e →
          last (console (snd r)) = Some (ConsoleError "Manual sync error:" (Some e)))
  ∧ same_schedule st (snd r).
Proof.
  intros Ha. simpl. rewrite post_trigger_eq by done. simpl.
  pose proof (triggerManualSync_keeps_schedule_aux syncService
                (default "incremental" syncType) None st) as Hs.
  destruct (triggerManualSync _ _ _ st) as [[v|e] st1]; simpl in *.
  - repeat split; try done; apply Hs.
  - split; [done|]. split; [done|]. split; [done|]. split; [|done].
    intros e' [= <-]. by rewrite last_snoc.
Qed.

(** *** GET /api/sync/status *)

#[local] Existing Instances started_after_total started_after_trans.

(** X13. [GET /api/sync/status] changes nothing and returns the ten most
    recently started records, or all of them when there are fewer, latest
    first: every record returned is in [sync_log], and no record of
    [sync_log] that is left out was started after one that is returned. *)
Theorem get_status_latest_ten st :
  let r := get_status st in
  snd r = st
  ∧ ∃ rows,
      fst r = Normal (reply 200 (PayloadRows rows))
      ∧ length rows = min 10 (length (sync_log (world st)))
      ∧ StronglySorted started_after rows
      ∧ (∀ y, y ∈ rows → y ∈ sync_log (world st))
      ∧ (∀ x y, x ∈ sync_log (world st) → x ∉ rows → y ∈ rows →
                (log_started_at x ≤ log_started_at y)%nat).
Proof.
  simpl. unfold get_status, select_latest. unfold_route. simpl.
  split; [done|]. eexists. split; [done|].
  set (l := sync_log (world st)).
  pose proof (merge_sort_Permutation started_after l) as Hp.
  pose proof (StronglySorted_merge_sort started_after l) as Hs.
  rewrite <- (take_drop 10 (merge_sort started_after l)) in Hs.
  split; [by rewrite length_take, Hp|].
  split; [by eapply StronglySorted_app_1_l|].
  split.
  { intros y Hy. rewrite <- Hp. by eapply subseteq_take. }
  intros x y Hx Hnx Hy.
  rewrite <- Hp, <- (take_drop 10 (merge_sort started_after l)) in Hx.
  apply elem_of_app in Hx as [Hx|Hx]; [done|].
  by apply (StronglySorted_app_1_elem_of _ _ _ y x) in Hs.
Qed.

(** *** POST /api/channels *)

Lemma lookup_channel_not_exists c w :
  lookup_channel c w = None → ¬ Exists (λ r, ch_id r = c) (channel w).
Proof.
  intros Hl%lookup_channel_None [x [Hin Hx]]%Exists_exists.
  revert Hin. by eapply filter_nil_not_elem_of.
Qed.

(** X14. A request to add a channel that is not answered 201 has added
    nothing: the handler always answers, and unless the answer is 201 the
    database and the schedule are as before. *)
Theorem post_channel_all_or_nothing body st :
  let r := post_channel cron_validate getChannelDetails body st in
  ∃ answer,
    fst r = Normal answer
    ∧ (reply_status answer ≠ 201 →
       world (snd r) = world st ∧ same_schedule st (snd r)).
Proof.
  simpl. unfold post_channel, insert_channel. unfold_route. simpl.
  destruct (negb (truthy (add_channelId body)) || negb (truthy (add_apiKey body)));
    [by eexists|].
  destruct (getChannelDetails _ _) as [d|e]; [|by eexists].
  destruct (filter _ _) as [|c rest]; [|by eexists]. simpl.
  destruct (bool_decide (Exists _ _)); [by eexists|]. simpl.
  destruct (app_scheduler st).
  - match goal with
    | |- context [registerChannel cron_validate ?c ?st1] =>
        pose proof (registerChannel_normal cron_validate c st1) as Hn;
        destruct (registerChannel cron_validate c st1) as [[[]|e] st2]
    end; simplify_eq/=.
    by eexists.
  - by eexists.
Qed.

(** X15. Adding a channel that the YouTube API knows under the id given,
    with a key, and that the database does not hold yet: the answer is 201,
    the row is stored enabled with the key and the schedule given (the daily
    one when none is given), the rows already there are kept, and exactly one
    trigger is armed for the channel, built from that row. *)
Theorem post_channel_adds channelId key schedule d st :
  jobs_consistent st →
  app_scheduler st = true →
  channelId ≠ "" → key ≠ "" →
  getChannelDetails key channelId = Normal d →
  cd_id d = channelId →
  lookup_channel channelId (world st) = None →
  let cronTime := default "0 2 * * *" schedule in
  let row := {| ch_id := channelId; ch_sync_schedule := Some cronTime;
                ch_api_key := key; ch_sync_enabled := true |} in
  cron_validate (or_default (Some cronTime) "0 2 * * *") = None →
  let r := post_channel cron_validate getChannelDetails
             {| add_channelId := Some channelId; add_apiKey := Some key;
                add_syncSchedule := schedule |} st in
  fst r = Normal (reply 201
                    (PayloadAdded "Channel added successfully" channelId
                       (cd_title d) (cd_customUrl d) true cronTime))
  ∧ channel (world (snd r)) = channel (world st) ++ [row]
  ∧ lookup_channel channelId (world (snd r)) = Some row
  ∧ armed channelId (snd r) = [trigger_of channelId row].
Proof.
  intros Hc Ha Hid%String.eqb_neq Hkey%String.eqb_neq Hd Hcd Hl cronTime row Hv r.
  pose proof (lookup_channel_not_exists _ _ Hl) as Hex.
  apply lookup_channel_None in Hl as Hf.
  set (st1 := set_world None (set_channel (λ l, l ++ [row]) (world st)) st).
  assert (lookup_channel channelId (world st1) = Some row) as Hl1.
  { unfold lookup_channel. simpl. rewrite filter_app, Hf. simpl.
    by rewrite filter_cons_True. }
  assert (r = (Normal (reply 201
                         (PayloadAdded "Channel added successfully" channelId
                            (cd_title d) (cd_customUrl d) true cronTime)),
               registered channelId row st1)) as ->.
  { subst r. unfold post_channel, insert_channel, truthy. unfold_route. simpl.
    rewrite Hid, Hkey. simpl. rewrite Hd, Hf, Hcd. simpl.
    rewrite bool_decide_eq_false_2 by done. simpl. rewrite Ha.
    fold cronTime. fold row. fold st1.
    by rewrite (registerChannel_enabled _ _ row). }
  simpl. split; [done|]. split.
  { unfold registered. simpl. by rewrite stop_existing_world. }
  split.
  { unfold registered, lookup_channel. simpl. rewrite stop_existing_world.
    exact Hl1. }
  by apply armed_registered.
Qed.

End RouteFacts.

Section CancelFacts.

Context {ServiceState SyncResult : Type}.
Variable syncService : @SyncService ServiceState SyncResult.

Implicit Types (st : @State ServiceState).

(** *** Cancelling, then asking for progress *)

Lemma filter_fmap_nil {A} (P : A → Prop) `{!∀ x, Decision (P x)} (f : A → A) (l : list A) :
  (∀ x, x ∈ l → ¬ P (f x)) → filter P (f <$> l) = [].
Proof.
  intros Hl. apply filter_nil_lookup. intros i y Hi.
  rewrite list_lookup_fmap in Hi.
  destruct (l !! i) as [x|] eqn:Hx; [|done]. simpl in Hi. injection Hi as <-.
  apply Hl. by eapply list_elem_of_lookup_2.
Qed.

(** X16. Cancelling leaves nothing running in the log.  After a cancel
    request for one channel, no record of that channel is in state
    [running]; after a cancel request without a channel, no record at all
    is, and [GET /api/sync/progress] answers [running: false]. *)
Theorem cancel_then_progress channelId st :
  app_syncService st = true →
  let st' := snd (post_cancel syncService channelId st) in
  (∀ c, channelId = Some c → count_running c (world st') = 0)
  ∧ (truthy channelId = false →
     (∀ c, count_running c (world st') = 0)
     ∧ fst (get_progress st') = Normal (json (BodyProgress false None))).
Proof.
  intros Ha. simpl. rewrite post_cancel_eq by done. simpl. split.
  - intros c ->. unfold count_running. simpl.
    rewrite filter_fmap_nil; [done|]. intros x _.
    destruct (String.eqb c ""); simpl;
      repeat case_bool_decide; simpl; intros [? ?];
      first [discriminate | tauto].
  - intros Ht. rewrite Ht.
    assert (filter (λ r, log_status r = "running")
              ((λ r, if bool_decide (log_status r = "running")
                     then set_cancelled (current_timestamp (world st)) r else r)
                 <$> sync_log (world st)) = []) as Hnone.
    { apply filter_fmap_nil. intros x _. by case_bool_decide. }
    split.
    + intros c. unfold count_running. simpl.
      rewrite filter_fmap_nil; [done|]. intros x _.
      case_bool_decide; simpl; intros [? ?]; first [discriminate | tauto].
    + unfold get_progress, select_running_latest, try_catch, mbind, M_bind, bind, ret.
      simpl.
      by rewrite Hnone.
Qed.

End CancelFacts.

(** * Concrete runs *)

Section Runs.

Import Sample.

Lemma updateChannel_one_trigger_witness :
  jobs started !! "A" = Some 0
  ∧ armed "A" started = [trigger_of "A" chA]
  ∧ cron_trace (snd (registerChannel accept_all "A" started))
    = cron_trace started ++ [CronStop 0; CronSchedule 3 "0 2 * * *"]
  ∧ tasks (snd (registerChannel accept_all "A" started)) !! 0
    = Some (stop_task (trigger_of "A" chA))
  ∧ armed "A" (snd (updateChannel accept_all "A" started))
    = [ {| task_channel := "A"; task_cron := "0 2 * * *"; task_api_key := "kA";
           task_running := true |} ].
Proof.
  split; [reflexivity|]. split; [reflexivity|].
  destruct (updateChannel_one_trigger accept_all "A" chA started)
    as (_ & Hacc & _).
  - exact (jobs_consistent_initialize accept_all _ (jobs_consistent_constructor w0)).
  - reflexivity.
  - reflexivity.
  - destruct (Hacc eq_refl) as [(_ & _ & _ & Htr) (Hu & _)].
    destruct (Htr 0 eq_refl) as [Htrace Hstopped].
    split; [exact Htrace|]. split; [exact (Hstopped _ eq_refl)|exact Hu].
Defined.

(** C4 fails on the code: "E" is enabled and has an armed trigger; its
    expression was then set to one that node-cron refuses.  [updateChannel]
    returns normally and leaves "E" without any armed trigger. *)
Lemma refused_schedule_no_trigger_counterexample :
  let r := updateChannel refuse_words "E" with_E in
  lookup_channel "E" (world with_E) = Some chE
  ∧ ch_sync_enabled chE = true
  ∧ length (armed "E" with_E) = 1
  ∧ fst r = Normal tt
  ∧ length (armed "E" (snd r)) = 0
  ∧ jobs (snd r) !! "E" = None.
Proof. vm_compute. repeat split. Qed.

Lemma registerChannel_skips_witness :
  lookup_channel "D" (world (constructor w0)) = Some chD
  ∧ ch_sync_enabled chD = false
  ∧ tasks (snd (registerChannel accept_all "D" (constructor w0))) = [].
Proof.
  split; [reflexivity|]. split; [reflexivity|].
  destruct (registerChannel_skips accept_all "D" (constructor w0))
    as (_ & _ & Ht & _).
  - right. exists chD. split; reflexivity.
  - exact Ht.
Defined.

Lemma initialize_skips_disabled_witness :
  ch_sync_enabled chD = false
  ∧ jobs (snd (initialize accept_all (constructor w0))) !! "D" = None
  ∧ armed "D" (snd (initialize accept_all (constructor w0))) = [].
Proof.
  split; [reflexivity|].
  destruct (initialize_skips_disabled accept_all "D" chD (constructor w0))
    as (_ & Hj & Ha); [reflexivity..|].
  split; [exact Hj|exact Ha].
Defined.

Lemma fire_failure_contained_witness :
  tasks started !! 1 = Some (trigger_of "B" chB)
  ∧ fst (fire failing_B 1 started) = Normal tt
  ∧ jobs (snd (fire failing_B 1 started)) = jobs started
  ∧ tasks (snd (fire failing_B 1 started)) = tasks started.
Proof.
  split; [reflexivity|].
  destruct (fire_failure_contained failing_B 1 (trigger_of "B" chB) boom
              (world started) started)
    as (Hn & Hj & Ht & _); [reflexivity..|].
  split; [exact Hn|]. split; [exact Hj|exact Ht].
Defined.

Lemma triggerManualSync_one_witness :
  "Z" ≠ ""
  ∧ lookup_channel "Z" w0 = None
  ∧ fst (triggerManualSync failing_B "full" (Some "Z") (constructor w0))
    = Throw (MkError "Channel Z not found").
Proof.
  split; [discriminate|]. split; [reflexivity|].
  destruct (triggerManualSync_one failing_B "full" "Z" (constructor w0))
    as [Hmiss _]; [discriminate|].
  destruct Hmiss as [Hr _]; [reflexivity|]. exact Hr.
Defined.

Lemma triggerManualSync_all_until_failure_witness :
  let svc := Orchestrator.syncService pipeline_B_fails in
  let w1 := snd (Orchestrator.run pipeline_B_fails "incremental" "A" "kA" w_abc) in
  let r := triggerManualSync svc "incremental" None (constructor w_abc) in
  filter (λ c, ch_sync_enabled c = true) (channel w_abc) = [chA] ++ [chB; chC]
  ∧ runs_through svc "incremental" [chA] w_abc = Some w1
  ∧ fst (service_run svc "incremental" chB w1) = Throw boom
  ∧ fst r = Throw boom
  ∧ calls (snd r) = [CallIncremental "A" "kA"; CallIncremental "B" "kB"]
  ∧ last (console (snd r)) = Some (ConsoleError "Manual sync failed:" (Some boom))
  ∧ log_status <$> sync_log (world (snd r)) = ["completed"; "failed"].
Proof.
  intros svc w1 r.
  split; [reflexivity|]. split; [reflexivity|]. split; [reflexivity|].
  destruct (triggerManualSync_all_until_failure svc "incremental"
              [chA] [chB; chC] boom w1 (constructor w_abc))
    as (Hr & Hc & Hw & Hl).
  - reflexivity.
  - reflexivity.
  - intros b Hb. injection Hb as <-. reflexivity.
  - split; [exact Hr|]. split; [exact Hc|].
    split; [fold r in Hl; rewrite Hl; reflexivity|].
    fold r in Hw. rewrite Hw. reflexivity.
Defined.

Lemma put_apiKey_keeps_registered_key_witness :
  lookup_channel "A" (world (serving w0)) = Some chA
  ∧ calls (snd (fire failing_B 0
             (snd (put_channel accept_all "A"
                     {| syncEnabled := None; syncSchedule := None; apiKey := Some "new" |}
                     (snd (registerChannel accept_all "A" (serving w0)))))))
    = [CallIncremental "A" "kA"].
Proof.
  split; [reflexivity|].
  destruct (put_apiKey_keeps_registered_key failing_B accept_all "A" chA "new" (serving w0))
    as (_ & _ & _ & _ & _ & _ & Hc); [reflexivity..|].
  exact Hc.
Defined.

Lemma post_cancel_cancels_running_witness :
  app_syncService in_progress = true
  ∧ Orchestrator.is_flagged "A"
      (service (world (snd (post_cancel (Orchestrator.syncService pipeline_ok)
                              (Some "A") in_progress)))) = true
  ∧ length (sync_log (world (snd (post_cancel (Orchestrator.syncService pipeline_ok)
                                    (Some "A") in_progress))))
    = 3.
Proof.
  split; [reflexivity|].
  destruct (post_cancel_cancels_running pipeline_ok (Some "A") in_progress)
    as (_ & Hf & Hl & _); [reflexivity|].
  split; [apply Hf; by right|exact Hl].
Defined.

Lemma triggerManualSync_not_exclusive_witness :
  count_running "A" w_running = 1
  ∧ count_running "A" (snd (Orchestrator.open "A" "full" w_running)) = 2.
Proof.
  split; [reflexivity|].
  destruct (triggerManualSync_not_exclusive pipeline_ok "full" "A" chA in_progress)
    as [(_ & Hc & _) _]; [discriminate|reflexivity|].
  exact Hc.
Defined.

(** C1 fails on the code: while a run of "A" is in progress (record 0 is
    [running]), a manual full sync of "A" is not rejected.  It resolves
    with a completed run, and the record it opened was [running] next to
    record 0. *)
Lemma second_run_accepted_counterexample :
  let r := triggerManualSync (Orchestrator.syncService pipeline_ok) "full" (Some "A")
             in_progress in
  count_running "A" (world in_progress) = 1
  ∧ fst r = Normal (Synced {| Orchestrator.run_id := 3;
                              Orchestrator.run_state := "completed" |})
  ∧ count_running "A" (snd (Orchestrator.open "A" "full" (world in_progress))) = 2
  ∧ log_status <$> sync_log (world (snd r))
    = ["running"; "running"; "completed"; "completed"].
Proof. vm_compute. repeat split. Qed.

(** C2 fails on the code: with enabled entities A, B, C where the run of B
    raises, the call rethrows B's error instead of reporting 3, and C is
    never attempted. *)
Lemma sync_all_aborts_counterexample :
  let r := triggerManualSync failing_B "incremental" None (constructor w0) in
  ch_id <$> filter (λ c, ch_sync_enabled c = true) (channel w0) = ["A"; "B"; "C"]
  ∧ fst r = Throw boom
  ∧ fst r ≠ Normal (SyncedAll 3)
  ∧ call_channel <$> calls (snd r) = ["A"; "B"].
Proof. vm_compute. repeat split. discriminate. Qed.

(** C9 fails on the code: with a run of "A" and a later run of "B" both
    [running], the answer holds the record of "B" alone. *)
Lemma progress_single_record_counterexample :
  let r := get_progress in_progress in
  log_status (row 0 "A" "running" 1) = "running"
  ∧ row 0 "A" "running" 1 ∈ sync_log (world in_progress)
  ∧ fst r = Normal (json (BodyProgress true (Some (row 1 "B" "running" 2)))).
Proof.
  simpl. split; [reflexivity|]. split; [left|]. reflexivity.
Qed.

End Runs.

(** * Concrete runs of the other functions *)

Section MoreRuns.

Import Sample.

Lemma jobs_consistent_serving {ServiceState} (w : @World ServiceState) :
  jobs_consistent (serving w).
Proof. intros h t Ht. done. Qed.

Lemma jobs_valid_serving {ServiceState} (w : @World ServiceState) :
  jobs_valid (serving w).
Proof. intros k h Hk. done. Qed.

Lemma jobs_consistent_serving_started : jobs_consistent serving_started.
Proof. apply jobs_consistent_initialize, jobs_consistent_serving. Qed.

Lemma jobs_valid_serving_started : jobs_valid serving_started.
Proof. apply jobs_valid_initialize, jobs_valid_serving. Qed.

Lemma unregisterChannel_removes_witness :
  armed "A" serving_started = [trigger_of "A" chA]
  ∧ jobs (snd (unregisterChannel "A" serving_started)) !! "A" = None
  ∧ armed "A" (snd (unregisterChannel "A" serving_started)) = [].
Proof.
  split; [reflexivity|].
  destruct (unregisterChannel_removes "A" serving_started)
    as (_ & Hj & Ha & _).
  - apply jobs_consistent_serving_started.
  - split; [exact Hj|exact Ha].
Defined.

Lemma unregisterChannel_keeps_others_witness :
  "B" ≠ "A"
  ∧ armed "B" (snd (unregisterChannel "A" serving_started)) = armed "B" serving_started.
Proof.
  split; [discriminate|].
  destruct (unregisterChannel_keeps_others "A" "B" serving_started) as [_ Ha].
  - apply jobs_valid_serving_started.
  - discriminate.
  - exact Ha.
Defined.

Lemma refused_expression_disarms_witness :
  armed "E" with_E = [ {| task_channel := "E"; task_cron := "0 2 * * *";
                          task_api_key := "kE"; task_running := true |} ]
  ∧ armed "E" (snd (updateChannel refuse_words "E" with_E)) = [].
Proof.
  split; [reflexivity|].
  destruct (refused_expression_disarms refuse_words "E" chE
              (MkError "every day is a invalid expression for minute") with_E)
    as [_ (_ & Ha & _)].
  - apply (jobs_consistent_registerChannel refuse_words "E"),
      jobs_consistent_serving.
  - reflexivity.
  - reflexivity.
  - reflexivity.
  - exact Ha.
Defined.

Lemma startDailySync_arms_enabled_witness :
  lookup_channel "B" w0 = Some chB
  ∧ armed "B" (snd (startDailySync accept_all "0 4 * * *" (constructor w0)))
    = [ {| task_channel := "B"; task_cron := "0 */6 * * *"; task_api_key := "kB";
           task_running := true |} ].
Proof.
  split; [reflexivity|].
  destruct (startDailySync_arms_enabled accept_all "0 4 * * *" "B" chB (constructor w0))
    as (_ & Ha & _).
  - apply jobs_consistent_constructor.
  - apply jobs_valid_constructor.
  - reflexivity.
  - reflexivity.
  - reflexivity.
  - exact Ha.
Defined.

Lemma stopAll_disarms_all_witness :
  length (armed "A" serving_started) = 1
  ∧ jobs (snd (stopAll serving_started)) = ∅
  ∧ armed "A" (snd (stopAll serving_started)) = [].
Proof.
  split; [reflexivity|].
  destruct (stopAll_disarms_all serving_started) as (_ & Hj & Ha & _).
  - apply jobs_consistent_serving_started.
  - split; [exact Hj|apply Ha].
Defined.

Lemma put_channel_reconciles_witness :
  lookup_channel "A" (world serving_started) = Some chA
  ∧ armed "A"
      (snd (put_channel accept_all "A"
              {| syncEnabled := None; syncSchedule := Some (Some "0 5 * * *");
                 apiKey := None |} serving_started))
    = [ {| task_channel := "A"; task_cron := "0 5 * * *"; task_api_key := "kA";
           task_running := true |} ]
  ∧ armed "B"
      (snd (put_channel accept_all "B"
              {| syncEnabled := Some false; syncSchedule := None; apiKey := None |}
              serving_started))
    = [].
Proof.
  split; [reflexivity|]. split.
  - destruct (put_channel_reconciles accept_all "A"
                {| syncEnabled := None; syncSchedule := Some (Some "0 5 * * *");
                   apiKey := None |} chA serving_started)
      as (_ & _ & Ha & _).
    + apply jobs_consistent_serving_started.
    + reflexivity.
    + reflexivity.
    + right. discriminate.
    + reflexivity.
    + exact Ha.
  - destruct (put_channel_reconciles accept_all "B"
                {| syncEnabled := Some false; syncSchedule := None; apiKey := None |}
                chB serving_started)
      as (_ & _ & Ha & _).
    + apply jobs_consistent_serving_started.
    + reflexivity.
    + reflexivity.
    + left. discriminate.
    + discriminate.
    + exact Ha.
Defined.

Lemma unknown_channel_404_witness :
  lookup_channel "Z" (world serving_started) = None
  ∧ fst (delete_channel "Z" serving_started)
    = Normal (reply 404 (PayloadError "Channel not found" None)).
Proof.
  split; [reflexivity|].
  destruct (unknown_channel_404 failing_B accept_all "Z"
              {| syncEnabled := Some true; syncSchedule := None; apiKey := None |}
              None serving_started) as (_ & Hd & _).
  - reflexivity.
  - by rewrite Hd.
Defined.

Lemma delete_channel_removes_witness :
  lookup_channel "A" (world serving_started) = Some chA
  ∧ lookup_channel "A" (world (snd (delete_channel "A" serving_started))) = None
  ∧ armed "A" (snd (delete_channel "A" serving_started)) = [].
Proof.
  split; [reflexivity|].
  destruct (delete_channel_removes "A" chA serving_started)
    as (_ & Hl & _ & _ & Ha & _).
  - apply jobs_consistent_serving_started.
  - reflexivity.
  - reflexivity.
  - split; [exact Hl|exact Ha].
Defined.

Lemma post_channel_sync_started_witness :
  lookup_channel "B" (world serving_started) = Some chB
  ∧ fst (service_run failing_B "full" chB (world serving_started)) = Throw boom
  ∧ fst (post_channel_sync failing_B "B" (Some "full") serving_started)
    = Normal (reply 200 (PayloadStarted "full sync started for channel B" (Some "B") "full"))
  ∧ calls (snd (post_channel_sync failing_B "B" (Some "full") serving_started))
    = [CallFull "B" "kB"].
Proof.
  split; [reflexivity|]. split; [reflexivity|].
  destruct (post_channel_sync_started failing_B "B" (Some "full") chB serving_started)
    as (Hr & Hc & _).
  - discriminate.
  - reflexivity.
  - reflexivity.
  - split; [exact Hr|exact Hc].
Defined.

Lemma post_trigger_started_witness :
  fst (triggerManualSync failing_B "incremental" None serving_started) = Throw boom
  ∧ fst (post_trigger failing_B None serving_started)
    = Normal (reply 200 (PayloadStarted "incremental sync started" None "incremental")).
Proof.
  split; [reflexivity|].
  destruct (post_trigger_started failing_B None serving_started) as (Hr & _).
  - reflexivity.
  - exact Hr.
Defined.

Lemma cancel_then_progress_witness :
  count_running "A" (world in_progress) = 1
  ∧ count_running "A"
      (world (snd (post_cancel (Orchestrator.syncService pipeline_ok) (Some "A")
                     in_progress))) = 0.
Proof.
  split; [reflexivity|].
  destruct (cancel_then_progress (Orchestrator.syncService pipeline_ok) (Some "A")
              in_progress) as [Hc _].
  - reflexivity.
  - by apply Hc.
Defined.

Lemma post_channel_adds_witness :
  lookup_channel "N" (world serving_started) = None
  ∧ armed "N"
      (snd (post_channel accept_all youtube
              {| add_channelId := Some "N"; add_apiKey := Some "kN";
                 add_syncSchedule := None |} serving_started))
    = [ {| task_channel := "N"; task_cron := "0 2 * * *"; task_api_key := "kN";
           task_running := true |} ].
Proof.
  split; [reflexivity|].
  destruct (post_channel_adds accept_all youtube "N" "kN" None
              {| cd_id := "N"; cd_title := "Some channel"; cd_customUrl := "@some" |}
              serving_started)
    as (_ & _ & _ & Ha).
  - apply jobs_consistent_serving_started.
  - reflexivity.
  - discriminate.
  - discriminate.
  - reflexivity.
  - reflexivity.
  - reflexivity.
  - reflexivity.
  - exact Ha.
Defined.

End MoreRuns.
